(** * Whiteboard: the canvas interaction engine of the mini whiteboard

    A shallow embedding of the [Whiteboard] React component (shape model,
    hit-testing, renderer, pointer handlers, persistence bridge) and the
    properties its specification states about it.

    Conventions of the embedding.
    - A JavaScript number is an IEEE 754 binary64 value: Rocq's primitive
      [float], whose operations are the ones the JavaScript operators
      [+ - * <= >=] and [Math.sqrt] compute.
    - A shape is a record; a property that the code reads with a default
      ([s.radius || 30]) or that only some variants carry is an [option].
    - React state is threaded explicitly: a handler maps the state before an
      event to the state after it.  A functional updater [setShapes(prev => ..)]
      is applied at once, and every handler sees the state left by the
      previous event.
    - [localStorage] is a finite map from keys to stored strings, and the
      requests handed to [fetch] are appended to a log, in the order sent. *)

From Stdlib Require Import ZArith List String Bool Lia.
From Stdlib Require Import Floats DecimalString.
From stdpp Require Import gmap strings list.

(** ** JavaScript numbers *)

Module JS.

Local Open Scope float_scope.

(** ToBoolean on a number: [0], [-0] and [NaN] are falsy. *)
Definition falsy (f : float) : bool :=
  match PrimFloat.classify f with
  | PZero | NZero | NaN => true
  | _ => false
  end.

(** [o || d] for a numeric property [o] that may be absent. *)
Definition or_num (o : option float) (d : float) : float :=
  match o with
  | Some f => if falsy f then d else f
  | None => d
  end.

(** [o || d] for a string property: absent and the empty string are falsy. *)
Definition or_str (o : option string) (d : string) : string :=
  match o with
  | Some s => if String.eqb s "" then d else s
  | None => d
  end.

(** ToNumber of a numeric property that may be absent: [undefined] is [NaN]. *)
Definition to_number (o : option float) : float :=
  match o with
  | Some f => f
  | None => nan
  end.

(** [a >= b]. *)
Definition geb (a b : float) : bool := b <=? a.

(** [Math.min(a, b)]: [NaN] when either is, and [-0] below [+0]. *)
Definition Math_min (a b : float) : float :=
  if PrimFloat.is_nan a || PrimFloat.is_nan b then nan
  else if a <? b then a
  else if b <? a then b
  else match PrimFloat.classify a with NZero => a | _ => b end.

(** [Math.max(a, b)]: [NaN] when either is, and [+0] above [-0]. *)
Definition Math_max (a b : float) : float :=
  if PrimFloat.is_nan a || PrimFloat.is_nan b then nan
  else if a <? b then b
  else if b <? a then a
  else match PrimFloat.classify a with PZero => a | _ => b end.

Definition Math_sqrt (a : float) : float := PrimFloat.sqrt a.

(** [Math.PI], the binary64 value nearest to pi. *)
Definition Math_PI : float := 0x1.921fb54442d18p+1.

(** [Math.floor] of a finite number, as an integer. *)
Definition floorZ (f : float) : option Z :=
  match Prim2SF f with
  | S754_zero _ => Some 0%Z
  | S754_finite sign m e =>
      let mz := Z.pos m in
      Some (match e with
            | Z.neg k => let d := Z.pow 2 (Z.pos k) in
                         if sign then (- ((mz + d - 1) / d))%Z else (mz / d)%Z
            | _ => let v := (mz * Z.pow 2 e)%Z in
                   if sign then (- v)%Z else v
            end)
  | S754_infinity _ | S754_nan => None
  end.

(** Number::toString on an integer: its decimal digits, with a leading
    minus sign below zero. *)
Definition string_of_Z (z : Z) : string :=
  match z with
  | Z0 => "0"
  | Z.pos p => NilEmpty.string_of_uint (Pos.to_uint p)
  | Z.neg p => "-" ++ NilEmpty.string_of_uint (Pos.to_uint p)
  end%string.

(** The string that [Math.floor(f)] contributes to a concatenation. *)
Definition string_of_floor (f : float) : string :=
  match floorZ f with
  | Some z => string_of_Z z
  | None =>
      match PrimFloat.classify f with
      | PInf => "Infinity"
      | NInf => "-Infinity"
      | _ => "NaN"
      end%string
  end.

End JS.

(** ** Shape model *)

Module Point.
Record t := mk { x : float; y : float }.
End Point.

Module Shape.
(** The properties that the component reads or writes on a shape object. *)
Record t := mk {
  id : string;
  type : string;
  x : float;
  y : float;
  pageId : string;
  width : option float;
  height : option float;
  radius : option float;
  x2 : option float;
  y2 : option float;
  points : option (list Point.t);
  content : option string;
  fontSize : option float;
  fontFamily : option string;
  color : option string
}.

(** [{ ...s, x: nx, y: ny }] *)
Definition move (s : t) (nx ny : float) : t :=
  mk (id s) (type s) nx ny (pageId s) (width s) (height s) (radius s)
     (x2 s) (y2 s) (points s) (content s) (fontSize s) (fontFamily s) (color s).

(** [{ ...s, points: pts }] *)
Definition with_points (s : t) (pts : list Point.t) : t :=
  mk (id s) (type s) (x s) (y s) (pageId s) (width s) (height s) (radius s)
     (x2 s) (y2 s) (Some pts) (content s) (fontSize s) (fontFamily s) (color s).
End Shape.

(** ** Geometry: [findShapeAt] *)

Module Geometry.

Import JS.
Local Open Scope float_scope.

(** The bounding box that [findShapeAt] accumulates over a stroke. *)
Record bbox := mkbbox { minX : float; minY : float; maxX : float; maxY : float }.

Definition bbox0 : bbox := mkbbox infinity infinity neg_infinity neg_infinity.

Definition bbox_add (b : bbox) (p : Point.t) : bbox :=
  mkbbox (Math_min (minX b) (Point.x p)) (Math_min (minY b) (Point.y p))
         (Math_max (maxX b) (Point.x p)) (Math_max (maxY b) (Point.y p)).

(** [pts.forEach(p => { bbox.minX = Math.min(bbox.minX, p.x); ... })] *)
Definition bbox_of (pts : list Point.t) : bbox := fold_left bbox_add pts bbox0.

(** One turn of the loop of [findShapeAt]: [true] when the body returns [s]. *)
Definition hit (point : Point.t) (s : Shape.t) : bool :=
  if String.eqb (Shape.type s) "circle" then
    let dx := Point.x point - Shape.x s in
    let dy := Point.y point - Shape.y s in
    Math_sqrt (dx * dx + dy * dy) <=? or_num (Shape.radius s) 30
  else if String.eqb (Shape.type s) "line" || String.eqb (Shape.type s) "arrow" then
    let minX := Math_min (Shape.x s) (to_number (Shape.x2 s)) in
    let maxX := Math_max (Shape.x s) (to_number (Shape.x2 s)) in
    let minY := Math_min (Shape.y s) (to_number (Shape.y2 s)) in
    let maxY := Math_max (Shape.y s) (to_number (Shape.y2 s)) in
    geb (Point.x point) (minX - 6) && (Point.x point <=? maxX + 6)
    && geb (Point.y point) (minY - 6) && (Point.y point <=? maxY + 6)
  else if String.eqb (Shape.type s) "pencil" then
    let pts := match Shape.points s with Some pts => pts | None => [] end in
    match pts with
    | [] => false
    | _ =>
        let b := bbox_of pts in
        geb (Point.x point) (minX b) && (Point.x point <=? maxX b)
        && geb (Point.y point) (minY b) && (Point.y point <=? maxY b)
    end
  else
    let w := or_num (Shape.width s) 60 in
    let h := or_num (Shape.height s) 40 in
    geb (Point.x point) (Shape.x s) && (Point.x point <=? Shape.x s + w)
    && geb (Point.y point) (Shape.y s) && (Point.y point <=? Shape.y s + h).

(** The loop [for (let i = shapes.length - 1; i >= 0; i--)], entered with
    [n = i + 1]. *)
Fixpoint findShapeAt_from (shapes : list Shape.t) (n : nat) (point : Point.t)
  : option Shape.t :=
  match n with
  | O => None
  | S i =>
      match shapes !! i with
      | Some s => if hit point s then Some s else findShapeAt_from shapes i point
      | None => findShapeAt_from shapes i point
      end
  end.

Definition findShapeAt (shapes : list Shape.t) (point : Point.t) : option Shape.t :=
  findShapeAt_from shapes (length shapes) point.

End Geometry.

(** ** JSON texts

    The strings that the component passes to and receives from
    [localStorage], request bodies and response bodies are JSON texts.  Their
    spelling (white space, the digits of a number, the order of the members of
    an object) is not modelled: a string is represented by what [JSON.parse]
    makes of it. *)

Module Json.

Import JS.
Local Open Scope float_scope.

#[local] Unset Elimination Schemes.
Inductive json :=
| JNull
| JBool (b : bool)
| JNum (f : float)
| JStr (s : string)
| JArr (items : list json)
| JObj (members : list (string * json)).
#[local] Set Elimination Schemes.

Inductive text :=
| Doc (j : json)   (** a string that [JSON.parse] reads as the document [j] *)
| Malformed        (** a non-empty string that is not a JSON text *)
| EmptyStr.        (** the empty string *)

(** ToBoolean on a string. *)
Definition truthy (t : text) : bool :=
  match t with
  | EmptyStr => false
  | _ => true
  end.

(** [JSON.parse]: [None] stands for the [SyntaxError] it throws. *)
Definition JSON_parse (t : text) : option json :=
  match t with
  | Doc j => Some j
  | Malformed | EmptyStr => None
  end.

(** A number serialises as its digits when finite ([-0] as [0]) and as
    [null] otherwise. *)
Definition json_of_number (f : float) : json :=
  match PrimFloat.classify f with
  | NaN | PInf | NInf => JNull
  | NZero => JNum 0
  | _ => JNum f
  end.

Definition json_of_point (p : Point.t) : json :=
  JObj [("x", json_of_number (Point.x p)); ("y", json_of_number (Point.y p))].

(** A property whose value is [undefined] is left out. *)
Definition member {A} (k : string) (enc : A → json) (o : option A)
  : list (string * json) :=
  match o with
  | Some a => [(k, enc a)]
  | None => []
  end.

Definition json_of_shape (s : Shape.t) : json :=
  JObj ([("id", JStr (Shape.id s));
         ("type", JStr (Shape.type s));
         ("x", json_of_number (Shape.x s));
         ("y", json_of_number (Shape.y s));
         ("pageId", JStr (Shape.pageId s))]
        ++ member "width" json_of_number (Shape.width s)
        ++ member "height" json_of_number (Shape.height s)
        ++ member "radius" json_of_number (Shape.radius s)
        ++ member "x2" json_of_number (Shape.x2 s)
        ++ member "y2" json_of_number (Shape.y2 s)
        ++ member "points" (fun pts => JArr (map json_of_point pts)) (Shape.points s)
        ++ member "content" JStr (Shape.content s)
        ++ member "fontSize" json_of_number (Shape.fontSize s)
        ++ member "fontFamily" JStr (Shape.fontFamily s)
        ++ member "color" JStr (Shape.color s)).

(** [JSON.stringify(s)] for a shape and [JSON.stringify(list)] for a list. *)
Definition JSON_stringify_shape (s : Shape.t) : text := Doc (json_of_shape s).

Definition JSON_stringify (l : list Shape.t) : text :=
  Doc (JArr (map json_of_shape l)).

(** Reading a parsed document back as shapes.  A member that occurs twice
    has the value of its last occurrence. *)
Fixpoint get (k : string) (members : list (string * json)) : option json :=
  match members with
  | [] => None
  | (k', v) :: rest =>
      match get k rest with
      | Some v' => Some v'
      | None => if String.eqb k k' then Some v else None
      end
  end.

Definition as_num (j : json) : option float :=
  match j with JNum f => Some f | _ => None end.

Definition as_str (j : json) : option string :=
  match j with JStr s => Some s | _ => None end.

Definition point_of_json (j : json) : option Point.t :=
  match j with
  | JObj ms =>
      x ← get "x" ms ≫= as_num;
      y ← get "y" ms ≫= as_num;
      Some (Point.mk x y)
  | _ => None
  end.

Definition as_points (j : json) : option (list Point.t) :=
  match j with
  | JArr items => mapM point_of_json items
  | _ => None
  end.

(** An optional property: absent, or present with a value of its type. *)
Definition optional {A} (k : string) (dec : json → option A)
    (ms : list (string * json)) : option (option A) :=
  match get k ms with
  | None => Some None
  | Some j => Some <$> dec j
  end.

(** [None] when the document is not a shape as the component types it (a
    coordinate that is [null], a missing [id], ...).  The record holds the
    fifteen properties that the component reads or writes: a member of
    another name, which the component would carry along in the parsed
    object, has no field here and is not kept. *)
Definition shape_of_json (j : json) : option Shape.t :=
  match j with
  | JObj ms =>
      id ← get "id" ms ≫= as_str;
      type ← get "type" ms ≫= as_str;
      x ← get "x" ms ≫= as_num;
      y ← get "y" ms ≫= as_num;
      pageId ← get "pageId" ms ≫= as_str;
      width ← optional "width" as_num ms;
      height ← optional "height" as_num ms;
      radius ← optional "radius" as_num ms;
      x2 ← optional "x2" as_num ms;
      y2 ← optional "y2" as_num ms;
      points ← optional "points" as_points ms;
      content ← optional "content" as_str ms;
      fontSize ← optional "fontSize" as_num ms;
      fontFamily ← optional "fontFamily" as_str ms;
      color ← optional "color" as_str ms;
      Some (Shape.mk id type x y pageId width height radius x2 y2 points
              content fontSize fontFamily color)
  | _ => None
  end.

Definition shapes_of_json (j : json) : option (list Shape.t) :=
  match j with
  | JArr items => mapM shape_of_json items
  | _ => None
  end.

End Json.

(** ** Component state and its surroundings *)

(** [dragState.current] *)
Record DragState := mkDrag {
  dragging : bool;
  offsetX : float;
  offsetY : float;
  shapeId : option string
}.

(** The canvas element: its backing store size and where it sits in the
    viewport ([getBoundingClientRect()]). *)
Record Canvas := mkCanvas {
  canvas_width : float;
  canvas_height : float;
  rect_left : float;
  rect_top : float
}.

(** A request handed to [fetch]. *)
Record Request := mkRequest {
  method : string;
  url : string;
  body : option Json.text
}.

(** The state hooks and refs of [Whiteboard], with the browser objects the
    component works on. *)
Record State := mkState {
  tool : string;
  shapes : list Shape.t;
  isDrawing : bool;
  current : option Shape.t;
  selectedId : option string;
  pageId : string;
  dragState : DragState;
  canvasRef : option Canvas;
  devicePixelRatio : option float;
  localStorage : gmap string Json.text;
  requests : list Request
}.

Definition setTool (t : string) (st : State) : State :=
  mkState t (shapes st) (isDrawing st) (current st) (selectedId st) (pageId st)
    (dragState st) (canvasRef st) (devicePixelRatio st) (localStorage st) (requests st).

Definition setShapes (l : list Shape.t) (st : State) : State :=
  mkState (tool st) l (isDrawing st) (current st) (selectedId st) (pageId st)
    (dragState st) (canvasRef st) (devicePixelRatio st) (localStorage st) (requests st).

Definition setIsDrawing (b : bool) (st : State) : State :=
  mkState (tool st) (shapes st) b (current st) (selectedId st) (pageId st)
    (dragState st) (canvasRef st) (devicePixelRatio st) (localStorage st) (requests st).

Definition setCurrent (c : option Shape.t) (st : State) : State :=
  mkState (tool st) (shapes st) (isDrawing st) c (selectedId st) (pageId st)
    (dragState st) (canvasRef st) (devicePixelRatio st) (localStorage st) (requests st).

Definition setSelectedId (i : option string) (st : State) : State :=
  mkState (tool st) (shapes st) (isDrawing st) (current st) i (pageId st)
    (dragState st) (canvasRef st) (devicePixelRatio st) (localStorage st) (requests st).

Definition setDragState (d : DragState) (st : State) : State :=
  mkState (tool st) (shapes st) (isDrawing st) (current st) (selectedId st) (pageId st)
    d (canvasRef st) (devicePixelRatio st) (localStorage st) (requests st).

(** [localStorage.setItem(k, v)] *)
Definition localStorage_setItem (k : string) (v : Json.text) (st : State) : State :=
  mkState (tool st) (shapes st) (isDrawing st) (current st) (selectedId st) (pageId st)
    (dragState st) (canvasRef st) (devicePixelRatio st) (<[k := v]> (localStorage st))
    (requests st).

(** [localStorage.getItem(k)]: [None] is [null]. *)
Definition localStorage_getItem (k : string) (st : State) : option Json.text :=
  localStorage st !! k.

(** [fetch(url, { method, body })]: the request leaves.  What comes back is
    no part of the state: the handlers drop it ([.catch(() => {})]), and
    [load] is given it as an argument. *)
Definition fetch (r : Request) (st : State) : State :=
  mkState (tool st) (shapes st) (isDrawing st) (current st) (selectedId st) (pageId st)
    (dragState st) (canvasRef st) (devicePixelRatio st) (localStorage st)
    (requests st ++ [r]).

(** The state of a freshly mounted component. *)
Definition initial (canvas : option Canvas) (ratio : option float)
    (storage : gmap string Json.text) : State :=
  mkState "select" [] false None None "page_1"
    (mkDrag false 0%float 0%float None) canvas ratio storage [].

(** [process.env.REACT_APP_API_ROOT || 'http://localhost:4000'], with the
    variable unset. *)
Definition API_ROOT : string := "http://localhost:4000".

(** [uid(prefix)], given what [Date.now()] and [Math.random()] return. *)
Definition uid (prefix : string) (now : Z) (random : float) : string :=
  (prefix ++ "_" ++ JS.string_of_Z now ++ "_"
     ++ JS.string_of_floor (random * 1000)%float)%string.

(** ** Renderer: [draw] *)

Module Renderer.

Import JS.
Local Open Scope float_scope.

(** The calls that [draw] makes on the 2D context, in order. *)
Inductive call :=
| setTransform (a b c d e f : float)
| clearRect (x y w h : float)
| scale (x y : float)
| save
| restore
| translate (x y : float)
| beginPath
| closePath
| arc (x y r a0 a1 : float)
| moveTo (x y : float)
| lineTo (x y : float)
| fill
| stroke
| fillRect (x y w h : float)
| strokeRect (x y w h : float)
| fillText (s : string) (x y : float)
| set_fillStyle (c : string)
| set_strokeStyle (c : string)
| set_lineWidth (w : float)
| set_textBaseline (b : string)
| set_font (px : float) (family : string).  (** [`${px}px ${family}`] *)

(** How a run of calls on the context ends. *)
Inductive completion :=
| Returned
| IndexSizeError.   (** the exception that [arc] throws *)

Definition is_finite (f : float) : bool :=
  match PrimFloat.classify f with
  | NaN | PInf | NInf => false
  | _ => true
  end.

(** The calls that throw.  Of the calls that [draw] makes only [arc] can:
    it returns at once when one of its arguments is infinite or [NaN], and
    otherwise throws an [IndexSizeError] when the radius is negative. *)
Definition throws (c : call) : bool :=
  match c with
  | arc x y r a0 a1 =>
      is_finite x && is_finite y && is_finite r && is_finite a0 && is_finite a1
      && (r <? 0)
  | _ => false
  end.

(** The calls [cs] made in order on the context: those carried out, and
    how the run ends.  A call that throws has no effect, and the exception
    leaves the callback of [forEach] and [draw] at once: no later call is
    made. *)
Fixpoint perform (cs : list call) : list call * completion :=
  match cs with
  | [] => ([], Returned)
  | c :: cs =>
      if throws c then ([], IndexSizeError)
      else let (made, ending) := perform cs in (c :: made, ending)
  end.

Section Draw.

(** The trigonometric functions of the host's [Math] object. *)
Variable Math_atan2 : float → float → float.
Variables Math_cos Math_sin : float → float.

(** The variant-specific part of the callback of [shapes.forEach]: the
    calls of the branch in the order it reaches them.  Where one of them
    throws, [perform] cuts the run short. *)
Definition draw_variant (s : Shape.t) : list call :=
  if String.eqb (Shape.type s) "circle" then
    [ beginPath;
      arc 0 0 (or_num (Shape.radius s) 30) 0 (Math_PI * 2);
      set_fillStyle (or_str (Shape.color s) "rgba(0,0,0,0.05)");
      fill;
      set_strokeStyle "black";
      stroke ]
  else if String.eqb (Shape.type s) "line" then
    [ beginPath;
      moveTo 0 0;
      lineTo (to_number (Shape.x2 s) - Shape.x s) (to_number (Shape.y2 s) - Shape.y s);
      set_strokeStyle "black";
      stroke ]
  else if String.eqb (Shape.type s) "arrow" then
    let x2 := to_number (Shape.x2 s) - Shape.x s in
    let y2 := to_number (Shape.y2 s) - Shape.y s in
    let angle := Math_atan2 y2 x2 in
    [ beginPath;
      moveTo 0 0;
      lineTo x2 y2;
      stroke;
      beginPath;
      moveTo x2 y2;
      lineTo (x2 - 10 * Math_cos (angle - Math_PI / 6))
             (y2 - 10 * Math_sin (angle - Math_PI / 6));
      lineTo (x2 - 10 * Math_cos (angle + Math_PI / 6))
             (y2 - 10 * Math_sin (angle + Math_PI / 6));
      closePath;
      set_fillStyle "black";
      fill ]
  else if String.eqb (Shape.type s) "pencil" then
    let pts := match Shape.points s with Some pts => pts | None => [] end in
    [ beginPath ]
    ++ match pts with
       | [] => []
       | p0 :: rest =>
           moveTo (Point.x p0 - Shape.x s) (Point.y p0 - Shape.y s)
           :: map (fun p => lineTo (Point.x p - Shape.x s) (Point.y p - Shape.y s)) rest
       end
    ++ [ stroke ]
  else if String.eqb (Shape.type s) "text" then
    [ set_fillStyle (or_str (Shape.color s) "#000");
      set_font (or_num (Shape.fontSize s) 16) (or_str (Shape.fontFamily s) "Arial");
      set_textBaseline "top";
      fillText (match Shape.content s with
                | Some c => c
                | None => ""
                end) 0 0 ]
  else
    [ set_fillStyle (or_str (Shape.color s) "rgba(0,0,0,0.05)");
      fillRect 0 0 (or_num (Shape.width s) 60) (or_num (Shape.height s) 40);
      strokeRect 0 0 (or_num (Shape.width s) 60) (or_num (Shape.height s) 40) ].

(** [selectedId === s.id] *)
Definition is_selected (selectedId : option string) (s : Shape.t) : bool :=
  match selectedId with
  | Some i => String.eqb i (Shape.id s)
  | None => false
  end.

(** The selection box drawn after a selected shape. *)
Definition draw_selection (s : Shape.t) : list call :=
  let by_radius (d : float) :=
    match Shape.radius s with
    | Some r => if falsy r then d else r * 2
    | None => d
    end in
  let w := or_num (Shape.width s) (by_radius 60) in
  let h := or_num (Shape.height s) (by_radius 40) in
  [ save;
    setTransform 1 0 0 1 0 0;
    set_strokeStyle "#0ea5a4";
    set_lineWidth 1;
    strokeRect (Shape.x s - 6) (Shape.y s - 6) (w + 12) (h + 12);
    restore ].

(** The callback of [shapes.forEach] in [draw]. *)
Definition draw_shape (selectedId : option string) (s : Shape.t) : list call :=
  [ save; translate (or_num (Some (Shape.x s)) 0) (or_num (Some (Shape.y s)) 0) ]
  ++ draw_variant s
  ++ [ restore ]
  ++ (if is_selected selectedId s then draw_selection s else []).

(** [draw()], as the calls carried out on the context of the canvas
    and how it ends: it returns, or the [arc] of a circle throws and the
    rest of the list is not drawn.  No call is made when the canvas is
    not mounted. *)
Definition draw (st : State) : list call * completion :=
  match canvasRef st with
  | None => ([], Returned)
  | Some canvas =>
      let ratio := or_num (devicePixelRatio st) 1 in
      perform
        ([ setTransform 1 0 0 1 0 0;
           clearRect 0 0 (canvas_width canvas) (canvas_height canvas);
           scale ratio ratio ]
         ++ concat (map (draw_shape (selectedId st)) (shapes st)))
  end.

End Draw.

End Renderer.

(** ** Interaction and persistence: the handlers of [Whiteboard] *)

Module Whiteboard.

Import JS Json Geometry.
Local Open Scope float_scope.
Local Open Scope list_scope.

Record MouseEvent := mkMouse { clientX : float; clientY : float }.

Definition getPointerPos (canvas : Canvas) (e : MouseEvent) : Point.t :=
  Point.mk (clientX e - rect_left canvas) (clientY e - rect_top canvas).

Definition POST_shape (s : Shape.t) : Request :=
  mkRequest "POST" (API_ROOT ++ "/api/shapes")%string (Some (JSON_stringify_shape s)).

Definition PUT_shape (id : string) (s : Shape.t) : Request :=
  mkRequest "PUT" (API_ROOT ++ "/api/shapes/" ++ id)%string (Some (JSON_stringify_shape s)).

Definition GET_shapes (pageId : string) : Request :=
  mkRequest "GET" (API_ROOT ++ "/api/pages/" ++ pageId ++ "/shapes")%string None.

(** [setShapes(prev => { const next = f(prev);
      localStorage.setItem('shapes', JSON.stringify(next)); return next; })] *)
Definition commit (f : list Shape.t → list Shape.t) (st : State) : State :=
  let next := f (shapes st) in
  localStorage_setItem "shapes" (JSON_stringify next) (setShapes next st).

(** [addShape(type)]; [now] is what [Date.now()] returns, and [r_id], [r_x],
    [r_y] what the three calls of [Math.random()] return, in that order. *)
Definition new_shape (now : Z) (r_id r_x r_y : float) (type pageId : string) : Shape.t :=
  let x := 100 + r_x * 200 in
  let y := 80 + r_y * 200 in
  let is_line := String.eqb type "line" || String.eqb type "arrow" in
  let is_text := String.eqb type "text" in
  Shape.mk (uid "shape" now r_id) type x y pageId
    None
    None
    (if String.eqb type "circle" then Some 30 else None)
    (if is_line then Some (x + 80) else None)
    (if is_line then Some (y + 0) else None)
    None
    (if is_text then Some "Text"%string else None)
    (if is_text then Some 16 else None)
    None
    None.

Definition addShape (now : Z) (r_id r_x r_y : float) (type : string) (st : State)
  : State :=
  let s := new_shape now r_id r_x r_y type (pageId st) in
  fetch (POST_shape s) (commit (fun prev => prev ++ [s]) st).

(** [tool === 'pencil' && isDrawing && current]: the draft, when the test
    passes. *)
Definition drafting (st : State) : option Shape.t :=
  if String.eqb (tool st) "pencil" && isDrawing st then current st else None.

(** [handleMouseDown(e)]; [now] and [random] are read by [uid], and [answer]
    is what [prompt('Enter text')] returns ([None] for [null]).  Without a
    mounted canvas [getPointerPos] throws before anything is done. *)
Definition handleMouseDown (now : Z) (random : float) (answer : option string)
    (e : MouseEvent) (st : State) : State :=
  match canvasRef st with
  | None => st
  | Some canvas =>
      let p := getPointerPos canvas e in
      if String.eqb (tool st) "pencil" then
        let s := Shape.mk (uid "shape" now random) "pencil" (Point.x p) (Point.y p)
                   (pageId st) None None None None None
                   (Some [Point.mk (Point.x p) (Point.y p)]) None None None None in
        setCurrent (Some s) (setIsDrawing true st)
      else if String.eqb (tool st) "text" then
        match answer with
        | Some text =>
            if String.eqb text "" then st
            else
              let s := Shape.mk (uid "shape" now random) "text" (Point.x p) (Point.y p)
                         (pageId st) None None None None None None (Some text)
                         None None None in
              fetch (POST_shape s) (commit (fun prev => prev ++ [s]) st)
        | None => st
        end
      else
        match findShapeAt (shapes st) p with
        | Some hit =>
            setDragState
              (mkDrag true (Point.x p - Shape.x hit) (Point.y p - Shape.y hit)
                 (Some (Shape.id hit)))
              (setSelectedId (Some (Shape.id hit)) st)
        | None => setSelectedId None st
        end
  end.

(** [s.id !== id], where [id] is [dragState.current.shapeId]. *)
Definition other_id (id : option string) (s : Shape.t) : bool :=
  match id with
  | Some i => negb (String.eqb (Shape.id s) i)
  | None => true
  end.

(** The callback of [prev.map] in [handleMouseMove]. *)
Definition drag_to (d : DragState) (p : Point.t) (s : Shape.t) : Shape.t :=
  if other_id (shapeId d) s then s
  else Shape.move s (Point.x p - offsetX d) (Point.y p - offsetY d).

(** [handleMouseMove(e)].  A draft always carries [points]; spreading an
    absent [points] would throw and leave the state as it is. *)
Definition handleMouseMove (e : MouseEvent) (st : State) : State :=
  match canvasRef st with
  | None => st
  | Some canvas =>
      let p := getPointerPos canvas e in
      match drafting st with
      | Some prev =>
          match Shape.points prev with
          | Some pts =>
              setCurrent
                (Some (Shape.with_points prev (pts ++ [Point.mk (Point.x p) (Point.y p)])))
                st
          | None => st
          end
      | None =>
          if dragging (dragState st) then
            commit (map (drag_to (dragState st) p)) st
          else st
      end
  end.

(** [shapes.find(x => x.id === id)] *)
Definition find_by_id (id : option string) (l : list Shape.t) : option Shape.t :=
  List.find (fun x => negb (other_id id x)) l.

(** [handleMouseUp(e)] *)
Definition handleMouseUp (e : MouseEvent) (st : State) : State :=
  match canvasRef st with
  | None => st
  | Some canvas =>
      match drafting st with
      | Some final =>
          setIsDrawing false
            (setCurrent None
               (fetch (POST_shape final)
                  (commit (fun prev => prev ++ [final]) st)))
      | None =>
          if dragging (dragState st) then
            let id := shapeId (dragState st) in
            let st1 :=
              match find_by_id id (shapes st), id with
              | Some s, Some i => fetch (PUT_shape i s) st
              | _, _ => st
              end in
            setDragState
              (mkDrag false (offsetX (dragState st)) (offsetY (dragState st)) None) st1
          else st
      end
  end.

(** What the server answers to the request of [load]. *)
Inductive FetchResult :=
| NetworkError                                (** [fetch] rejects *)
| Response (ok : bool) (body : Json.text).    (** [res.ok] and the body *)

(** How the promise of [load] settles.  [Untyped j] stands for a state
    outside this development: the parsed document [j] is not a list of
    shapes as [Shape.t] types them. *)
Inductive Settled :=
| Fulfilled (st : State)
| Rejected (error : string) (st : State)
| Untyped (j : json).

(** The part of [load] after the [try] block. *)
Definition load_saved (st : State) : Settled :=
  match localStorage_getItem "shapes" st with
  | Some saved =>
      if truthy saved then
        match JSON_parse saved with
        | Some j =>
            match shapes_of_json j with
            | Some l => Fulfilled (setShapes l st)
            | None => Untyped j
            end
        | None => Rejected "SyntaxError" st
        end
      else Fulfilled st
  | None => Fulfilled st
  end.

(** [load()], given how the [fetch] of the page's shapes turns out.  A
    body that is not JSON makes [res.json()] reject inside the [try]. *)
Definition load (r : FetchResult) (st : State) : Settled :=
  let st := fetch (GET_shapes (pageId st)) st in
  match r with
  | Response true body =>
      match JSON_parse body with
      | Some j =>
          match shapes_of_json j with
          | Some data =>
              Fulfilled (localStorage_setItem "shapes" (JSON_stringify data)
                           (setShapes data st))
          | None => Untyped j
          end
      | None => load_saved st
      end
  | Response false _ | NetworkError => load_saved st
  end.

(** The events that reach the component, with what the environment returns
    while each is handled. *)
Inductive Event :=
| MouseDown (now : Z) (random : float) (answer : option string) (e : MouseEvent)
| MouseMove (e : MouseEvent)
| MouseUp (e : MouseEvent)
| AddShape (now : Z) (r_id r_x r_y : float) (type : string)
| SetTool (t : string)
| ClickListItem (id : string).

Definition step (st : State) (ev : Event) : State :=
  match ev with
  | MouseDown now random answer e => handleMouseDown now random answer e st
  | MouseMove e => handleMouseMove e st
  | MouseUp e => handleMouseUp e st
  | AddShape now r_id r_x r_y type => addShape now r_id r_x r_y type st
  | SetTool t => setTool t st
  | ClickListItem id => setSelectedId (Some id) st
  end.

Definition run (evs : list Event) (st : State) : State := fold_left step evs st.

End Whiteboard.

(** ** Containment, in the words of the specification (section 4.2)

    A second account of the per-variant test, written from the
    specification rather than from the loop of [findShapeAt], to compare the
    two.  It is parameterised by how a dimension that the shape may lack is
    read. *)

Module Containment.

Import JS.
Local Open Scope float_scope.

Inductive variant := circle | segment | freehand | box.

Definition variant_of (s : Shape.t) : variant :=
  if String.eqb (Shape.type s) "circle" then circle
  else if String.eqb (Shape.type s) "line" then segment
  else if String.eqb (Shape.type s) "arrow" then segment
  else if String.eqb (Shape.type s) "pencil" then freehand
  else box.

(** An axis-aligned rectangle, by its least and greatest corner. *)
Record rect := mkrect { lo : Point.t; hi : Point.t }.

Definition inside (p : Point.t) (r : rect) : bool :=
  (Point.x (lo r) <=? Point.x p) && (Point.x p <=? Point.x (hi r))
  && (Point.y (lo r) <=? Point.y p) && (Point.y p <=? Point.y (hi r)).

(** The bounding box of two points. *)
Definition spanning (a b : Point.t) : rect :=
  mkrect (Point.mk (Math_min (Point.x a) (Point.x b)) (Math_min (Point.y a) (Point.y b)))
         (Point.mk (Math_max (Point.x a) (Point.x b)) (Math_max (Point.y a) (Point.y b))).

(** A rectangle grown by [m] on all four sides. *)
Definition expand (m : float) (r : rect) : rect :=
  mkrect (Point.mk (Point.x (lo r) - m) (Point.y (lo r) - m))
         (Point.mk (Point.x (hi r) + m) (Point.y (hi r) + m)).

(** The bounding box of a stroke: least and greatest coordinate over its
    points. *)
Definition least (l : list float) : float := fold_left Math_min l infinity.
Definition greatest (l : list float) : float := fold_left Math_max l neg_infinity.

Definition bounding (pts : list Point.t) : rect :=
  mkrect (Point.mk (least (map Point.x pts)) (least (map Point.y pts)))
         (Point.mk (greatest (map Point.x pts)) (greatest (map Point.y pts))).

(** Euclidean distance. *)
Definition distance (a b : Point.t) : float :=
  let dx := Point.x a - Point.x b in
  let dy := Point.y a - Point.y b in
  Math_sqrt (dx * dx + dy * dy).

Definition origin (s : Shape.t) : Point.t := Point.mk (Shape.x s) (Shape.y s).

(** A default that applies only when the property is absent. *)
Definition when_absent (o : option float) (d : float) : float :=
  match o with
  | Some f => f
  | None => d
  end.

Section Contains.

Variable dimension : option float → float → float.

Definition contains_with (p : Point.t) (s : Shape.t) : bool :=
  match variant_of s with
  | circle => distance p (origin s) <=? dimension (Shape.radius s) 30
  | segment =>
      inside p (expand 6 (spanning (origin s)
                            (Point.mk (to_number (Shape.x2 s)) (to_number (Shape.y2 s)))))
  | freehand =>
      match Shape.points s with
      | Some (p0 :: rest) => inside p (bounding (p0 :: rest))
      | _ => false
      end
  | box =>
      inside p (mkrect (origin s)
                  (Point.mk (Shape.x s + dimension (Shape.width s) 60)
                            (Shape.y s + dimension (Shape.height s) 40)))
  end.

End Contains.

(** The predicate as section 4.2 words it: the defaults stand in for
    dimensions that are absent. *)
Definition contains_as_stated : Point.t → Shape.t → bool := contains_with when_absent.

(** The predicate with the defaults standing in for dimensions that are
    absent, zero or [NaN], as [||] reads them. *)
Definition contains : Point.t → Shape.t → bool := contains_with or_num.

End Containment.

(** ** Sample states *)

Module Sample.

Import Whiteboard.
Local Open Scope float_scope.

Definition canvas : Canvas := mkCanvas 800 480 0 0.

(** A mounted component with nothing drawn and nothing stored. *)
Definition fresh : State := initial (Some canvas) (Some 1) ∅.

Definition shape (id type : string) (x y : float) : Shape.t :=
  Shape.mk id type x y "page_1" None None None None None None None None None None.

(** A circle whose radius is present and zero. *)
Definition dot : Shape.t :=
  Shape.mk "dot" "circle" 0 0 "page_1" None None (Some 0) None None None None None None None.

(** A rectangle whose width and height are present and zero. *)
Definition sliver : Shape.t :=
  Shape.mk "sliver" "rectangle" 0 0 "page_1" (Some 0) (Some 0) None None None None
    None None None None.

End Sample.

(** ** Vocabulary of the statements *)

(** [s'] has every property of [s] but the origin [(x, y)]. *)
Definition same_but_origin (s s' : Shape.t) : Prop :=
  Shape.id s' = Shape.id s
  ∧ Shape.type s' = Shape.type s
  ∧ Shape.pageId s' = Shape.pageId s
  ∧ Shape.width s' = Shape.width s
  ∧ Shape.height s' = Shape.height s
  ∧ Shape.radius s' = Shape.radius s
  ∧ Shape.x2 s' = Shape.x2 s
  ∧ Shape.y2 s' = Shape.y2 s
  ∧ Shape.points s' = Shape.points s
  ∧ Shape.content s' = Shape.content s
  ∧ Shape.fontSize s' = Shape.fontSize s
  ∧ Shape.fontFamily s' = Shape.fontFamily s
  ∧ Shape.color s' = Shape.color s.

(** A drag session is active and no pencil draft takes precedence over it:
    the state in which [handleMouseMove] repositions. *)
Definition dragging_now (st : State) : Prop :=
  Whiteboard.drafting st = None ∧ dragging (dragState st) = true.

(** The shape is the one the drag session names. *)
Definition dragged (st : State) (s : Shape.t) : Prop :=
  shapeId (dragState st) = Some (Shape.id s).

(** The draft that a pointer-down opens with the pencil tool. *)
Definition draft_at (now : Z) (random : float) (pageId : string) (p : Point.t)
  : Shape.t :=
  Shape.mk (uid "shape" now random) "pencil" (Point.x p) (Point.y p) pageId
    None None None None None (Some [Point.mk (Point.x p) (Point.y p)])
    None None None None.

(** The fetch of [load] fails: [fetch] rejects, the response is not [ok], or
    its body is not JSON. *)
Definition fetch_failed (r : Whiteboard.FetchResult) : bool :=
  match r with
  | Whiteboard.NetworkError => true
  | Whiteboard.Response ok body =>
      negb ok || match Json.JSON_parse body with Some _ => false | None => true end
  end.

(** The state once [load] has sent its request. *)
Definition asked (st : State) : State :=
  fetch (Whiteboard.GET_shapes (pageId st)) st.

(** Numbers that JSON carries as they are: the finite ones, but [-0]. *)
Definition exact (f : float) : bool :=
  match PrimFloat.classify f with
  | NaN | PInf | NInf | NZero => false
  | _ => true
  end.

Definition if_present {A} (P : A → bool) (o : option A) : bool :=
  match o with
  | Some a => P a
  | None => true
  end.

Definition exact_point (p : Point.t) : bool := exact (Point.x p) && exact (Point.y p).

(** Every number of the shape is carried as it is. *)
Definition storable (s : Shape.t) : bool :=
  exact (Shape.x s) && exact (Shape.y s)
  && if_present exact (Shape.width s) && if_present exact (Shape.height s)
  && if_present exact (Shape.radius s)
  && if_present exact (Shape.x2 s) && if_present exact (Shape.y2 s)
  && if_present (forallb exact_point) (Shape.points s)
  && if_present exact (Shape.fontSize s).

(** ** The toolbar

    [Toolbar] is a view over [tool], [setTool] and [addShape]: six buttons,
    three of which select a tool and show as pressed while theirs is the
    active one. *)

Module Toolbar.

(** What a click on a button calls. *)
Inductive action :=
| callSetTool (t : string)
| callAddShape (type : string).

(** A button: its label, its [onClick], and for a tool button the name it
    compares [tool] with. *)
Record button := mkButton {
  label : string;
  onClick : action;
  name : option string
}.

(** [btn(label, onClick, name)] *)
Definition btn (label : string) (onClick : action) (name : string) : button :=
  mkButton label onClick (Some name).

(** The buttons, in the order rendered. *)
Definition buttons : list button :=
  [ btn "Select" (callSetTool "select") "select";
    btn "✏️ Pencil" (callSetTool "pencil") "pencil";
    mkButton "— Line" (callAddShape "line") None;
    mkButton "○ Circle" (callAddShape "circle") None;
    mkButton "→ Arrow" (callAddShape "arrow") None;
    btn "T Text" (callSetTool "text") "text" ].

(** [aria-pressed={tool === name}] *)
Definition aria_pressed (tool : string) (b : button) : bool :=
  match name b with
  | Some n => String.eqb tool n
  | None => false
  end.

End Toolbar.

(** ** Vocabulary of the further statements *)

(** The cache holds the serialisation of the list in memory. *)
Definition in_sync (st : State) : Prop :=
  localStorage st !! "shapes"%string = Some (Json.JSON_stringify (shapes st)).

(** The event is one that the rendered component can deliver in the state
    [st]: a click on a toolbar button, a click on an entry of the shapes
    panel, or a mouse event on the canvas. *)
Definition from_ui (st : State) (ev : Whiteboard.Event) : Prop :=
  match ev with
  | Whiteboard.SetTool t =>
      ∃ b, b ∈ Toolbar.buttons ∧ Toolbar.onClick b = Toolbar.callSetTool t
  | Whiteboard.AddShape _ _ _ _ type =>
      ∃ b, b ∈ Toolbar.buttons ∧ Toolbar.onClick b = Toolbar.callAddShape type
  | Whiteboard.ClickListItem id => id ∈ map Shape.id (shapes st)
  | _ => True
  end.

(** Every event of the sequence is one the component can deliver in the
    state it arrives in. *)
Fixpoint all_from_ui (st : State) (evs : list Whiteboard.Event) : Prop :=
  match evs with
  | [] => True
  | ev :: evs => from_ui st ev ∧ all_from_ui (Whiteboard.step st ev) evs
  end.

(** The shape carries what the renderer and the hit test read for its type. *)
Definition complete (s : Shape.t) : Prop :=
  (Shape.type s = "circle"%string ∧ Shape.radius s = Some 30%float)
  ∨ ((Shape.type s = "line"%string ∨ Shape.type s = "arrow"%string)
     ∧ is_Some (Shape.x2 s) ∧ is_Some (Shape.y2 s))
  ∨ (Shape.type s = "pencil"%string
     ∧ ∃ p pts, Shape.points s = Some (p :: pts))
  ∨ (Shape.type s = "text"%string
     ∧ ∃ c, Shape.content s = Some c ∧ c ≠ ""%string).

(** The selection and the drag session name shapes of the list. *)
Definition references_exist (st : State) : Prop :=
  (∀ i, selectedId st = Some i → i ∈ map Shape.id (shapes st))
  ∧ (dragging (dragState st) = true →
     ∃ i, shapeId (dragState st) = Some i ∧ i ∈ map Shape.id (shapes st)).

(** A request that creates or updates the shape [s]. *)
Definition writes_shape (r : Request) (s : Shape.t) : Prop :=
  r = Whiteboard.POST_shape s ∨ r = Whiteboard.PUT_shape (Shape.id s) s.

(** The shape that an event appends: a quick-added shape, a text typed at
    the prompt, or the pencil draft at its release. *)
Inductive created (st : State) : Whiteboard.Event → Shape.t → Prop :=
| quick_added (now : Z) (r_id r_x r_y : float) (type : string) :
    created st (Whiteboard.AddShape now r_id r_x r_y type)
      (Whiteboard.new_shape now r_id r_x r_y type (pageId st))
| typed (now : Z) (random : float) (e : Whiteboard.MouseEvent) (canvas : Canvas)
    (text : string) :
    canvasRef st = Some canvas →
    tool st = "text"%string →
    text ≠ ""%string →
    let p := Whiteboard.getPointerPos canvas e in
    created st (Whiteboard.MouseDown now random (Some text) e)
      (Shape.mk (uid "shape" now random) "text" (Point.x p) (Point.y p)
         (pageId st) None None None None None None (Some text) None None None)
| drawn (e : Whiteboard.MouseEvent) (s : Shape.t) :
    Whiteboard.drafting st = Some s →
    created st (Whiteboard.MouseUp e) s.

(** What an event may do to the list: keep it, with the cache; append one
    shape; or, for a pointer-move, reposition the shapes that the drag
    session names.  In the last two cases the cache is rewritten with the new
    list. *)
Inductive change (st : State) (ev : Whiteboard.Event) (st' : State) : Prop :=
| kept :
    shapes st' = shapes st →
    localStorage st' = localStorage st →
    change st ev st'
| appended (s : Shape.t) :
    created st ev s →
    shapes st' = shapes st ++ [s] →
    in_sync st' →
    change st ev st'
| repositioned (e : Whiteboard.MouseEvent) (canvas : Canvas) :
    ev = Whiteboard.MouseMove e →
    canvasRef st = Some canvas →
    dragging_now st →
    shapes st'
    = map (Whiteboard.drag_to (dragState st) (Whiteboard.getPointerPos canvas e))
        (shapes st) →
    in_sync st' →
    change st ev st'.

(** The draft, when there is one, is a pencil stroke of the active page that
    has at least one point. *)
Definition draft_ok (st : State) : Prop :=
  ∀ c, current st = Some c →
       Shape.type c = "pencil"%string
       ∧ Shape.pageId c = pageId st
       ∧ ∃ p pts, Shape.points c = Some (p :: pts).

(** Every shape of the list, and the draft, belong to the active page. *)
Definition on_page (st : State) : Prop :=
  Forall (λ s, Shape.pageId s = pageId st) (shapes st)
  ∧ ∀ c, current st = Some c → Shape.pageId c = pageId st.

(** The depth of the context's state stack after the calls [cs], entered at
    depth [n]; [None] when a [restore] finds the stack empty. *)
Fixpoint stack_depth (n : nat) (cs : list Renderer.call) : option nat :=
  match cs with
  | [] => Some n
  | Renderer.save :: cs => stack_depth (S n) cs
  | Renderer.restore :: cs =>
      match n with
      | O => None
      | S m => stack_depth m cs
      end
  | _ :: cs => stack_depth n cs
  end.

(** The [arc] of the shape throws: it is a circle, and the radius that
    [draw] passes, [s.radius || 30], is finite and negative. *)
Definition negative_radius (s : Shape.t) : bool :=
  let r := JS.or_num (Shape.radius s) 30 in
  String.eqb (Shape.type s) "circle" && Renderer.is_finite r && (r <? 0)%float.

(** The shape lacks what the hit test reads for its type: a line or arrow
    without [x2] or [y2], or a pencil stroke whose points are absent or
    empty. *)
Definition lacks_geometry (s : Shape.t) : Prop :=
  ((Shape.type s = "line"%string ∨ Shape.type s = "arrow"%string)
   ∧ (Shape.x2 s = None ∨ Shape.y2 s = None))
  ∨ (Shape.type s = "pencil"%string
     ∧ (Shape.points s = None ∨ Shape.points s = Some [])).

From Stdlib Require DecimalPos.

(** The separator that [uid] puts between the parts of an id. *)
Definition separator : Ascii.ascii :=
  match "_"%string with
  | String c _ => c
  | EmptyString => Ascii.zero
  end.

(** The character [c] does not occur in [s]. *)
Fixpoint free_of (c : Ascii.ascii) (s : string) : bool :=
  match s with
  | EmptyString => true
  | String c' s => negb (Ascii.eqb c c') && free_of c s
  end.

(** ** The server ([server/index.js])

    The express application keeps its pages and shapes in two arrays.  A
    shape is whatever object a request carried: a finite map from property
    names to JSON values (the order of the properties, which only the
    spelling of a reply shows, is not modelled).  Each route handler maps the
    store before the request to a reply and the store after it; [uuid] is
    what the call of [uuidv4()] returns. *)

Module Server.

Import Json.

(** A page: [{ id, name }], the name being the value the request gave. *)
Record Page := mkPage { page_id : string; page_name : json }.

(** The module variables [pages] and [shapes]. *)
Record Store := mkStore {
  pages : list Page;
  shapes : list (gmap string json)
}.

(** The store of a freshly started server. *)
Definition started : Store := mkStore [mkPage "page_1" (JStr "Page 1")] [].

(** ToBoolean on a property that may be absent. *)
Definition truthy (v : option json) : bool :=
  match v with
  | None | Some JNull => false
  | Some (JBool b) => b
  | Some (JNum f) => negb (JS.falsy f)
  | Some (JStr s) => negb (String.eqb s "")
  | Some (JArr _) | Some (JObj _) => true
  end.

(** [v === s], for a property [v] that may be absent and a string [s]. *)
Definition is_string (v : option json) (s : string) : bool :=
  match v with
  | Some (JStr t) => String.eqb t s
  | _ => false
  end.

(** What a handler passes to [res]: a status and the value given to
    [res.json], if any. *)
Inductive payload :=
| Pages (l : list Page)
| APage (p : Page)
| Shapes (l : list (gmap string json))
| AShape (s : gmap string json)
| Error (error : string)
| Empty.

Record Reply := mkReply { status : nat; sent : payload }.

(** [shapesForPage(pageId)] *)
Definition shapesForPage (pageId : string) (db : Store) : list (gmap string json) :=
  List.filter (λ s, is_string (s !! "pageId") pageId) (shapes db).

(** [GET /api/pages] *)
Definition GET_pages (db : Store) : Reply * Store :=
  (mkReply 200 (Pages (pages db)), db).

(** [POST /api/pages] *)
Definition POST_pages (uuid : string) (body : gmap string json) (db : Store)
  : Reply * Store :=
  match body !! "name" with
  | Some name =>
      if truthy (Some name) then
        let page := mkPage ("page_" ++ uuid) name in
        (mkReply 201 (APage page), mkStore (pages db ++ [page]) (shapes db))
      else (mkReply 400 (Error "name required"), db)
  | None => (mkReply 400 (Error "name required"), db)
  end.

(** [DELETE /api/pages/:id] *)
Definition DELETE_page (id : string) (db : Store) : Reply * Store :=
  (mkReply 204 Empty,
   mkStore (List.filter (λ p, negb (String.eqb (page_id p) id)) (pages db))
           (List.filter (λ s, negb (is_string (s !! "pageId") id)) (shapes db))).

(** [GET /api/pages/:id/shapes] *)
Definition GET_page_shapes (id : string) (db : Store) : Reply * Store :=
  (mkReply 200 (Shapes (shapesForPage id db)), db).

(** [GET /api/shapes] *)
Definition GET_shapes (db : Store) : Reply * Store :=
  (mkReply 200 (Shapes (shapes db)), db).

(** [POST /api/shapes]: [shape.id = shape.id || 'shape_' + uuidv4()] *)
Definition POST_shapes (uuid : string) (body : gmap string json) (db : Store)
  : Reply * Store :=
  let id := match body !! "id" with
            | Some v => if truthy (Some v) then v else JStr ("shape_" ++ uuid)
            | None => JStr ("shape_" ++ uuid)
            end in
  let shape := <["id" := id]> body in
  (mkReply 201 (AShape shape), mkStore (pages db) (shapes db ++ [shape])).

(** [shapes.findIndex(f)]: [None] stands for [-1]. *)
Fixpoint findIndex {A} (f : A → bool) (l : list A) : option nat :=
  match l with
  | [] => None
  | a :: l => if f a then Some 0 else S <$> findIndex f l
  end.

(** [PUT /api/shapes/:id]: [{ ...shapes[idx], ...req.body }] has the
    properties of the body, and those of the stored shape that the body
    lacks.  (The index that [findIndex] returns is within the list, so the
    inner [None] is never met.) *)
Definition PUT_shape (id : string) (body : gmap string json) (db : Store)
  : Reply * Store :=
  match findIndex (λ s, is_string (s !! "id") id) (shapes db) with
  | None => (mkReply 404 (Error "not found"), db)
  | Some idx =>
      match shapes db !! idx with
      | Some old =>
          let merged := body ∪ old in
          (mkReply 200 (AShape merged),
           mkStore (pages db) (<[idx := merged]> (shapes db)))
      | None => (mkReply 404 (Error "not found"), db)
      end
  end.

(** [DELETE /api/shapes/:id] *)
Definition DELETE_shape (id : string) (db : Store) : Reply * Store :=
  (mkReply 204 Empty,
   mkStore (pages db)
           (List.filter (λ s, negb (is_string (s !! "id") id)) (shapes db))).

End Server.

(** ** Between the component and the server

    What [express.json()] makes of a request body and what [res.json] makes
    of the shapes it is given. *)

Module Http.

Import Json.

(** The object that a list of members denotes: each member is set in turn,
    so that a later one of the same name wins. *)
Definition object_of (ms : list (string * json)) : gmap string json :=
  foldl (λ m kv, <[kv.1 := kv.2]> m) ∅ ms.

(** [express.json()]: the object that [req.body] holds, when the body of the
    request is the text of an object; [None] for any other body, which is
    outside this development. *)
Definition express_json (body : text) : option (gmap string json) :=
  match body with
  | Doc (JObj ms) => Some (object_of ms)
  | _ => None
  end.

(** [JSON.stringify] on a value that [JSON.parse] made: numbers are written
    as [json_of_number] writes them, at every depth.  The members of an inner
    object are kept as listed; they are read with [get]. *)
Fixpoint restringify (j : json) : json :=
  match j with
  | JNum f => json_of_number f
  | JArr items => JArr (map restringify items)
  | JObj ms => JObj (map (λ kv, match kv with (k, v) => (k, restringify v) end) ms)
  | JNull | JBool _ | JStr _ => j
  end.

(** The body of [res.json(shapes)]. *)
Definition res_json (l : list (gmap string json)) : text :=
  Doc (JArr (map (λ s, JObj (map_to_list (restringify <$> s))) l)).

(** The store after the server has handled the POST of each shape of [l],
    in order, as the component sends it; [uuid s] is what [uuidv4()] returns
    while the POST of [s] is handled.  (The bodies that the component sends
    are texts of objects, so the second branch is never taken.) *)
Definition post_all (uuid : Shape.t → string) (l : list Shape.t) (db : Server.Store)
  : Server.Store :=
  foldl (λ db s,
           match body (Whiteboard.POST_shape s) ≫= express_json with
           | Some o => (Server.POST_shapes (uuid s) o db).2
           | None => db
           end) db l.

(** The body of the reply to the component's GET of the shapes of a page. *)
Definition get_page_shapes (pageId : string) (db : Server.Store) : text :=
  match Server.sent (Server.GET_page_shapes pageId db).1 with
  | Server.Shapes l => res_json l
  | _ => EmptyStr
  end.

End Http.

(** * Properties *)

(** ** Hit-testing *)

Section HitTest.

Import Geometry.

Variable P : Point.t.

(** The loop entered at [n] is a search from the front of the first [n]
    shapes, reversed. *)
Lemma findShapeAt_from_rev (L : list Shape.t) (n : nat) :
  n ≤ length L →
  findShapeAt_from L n P = List.find (hit P) (rev (take n L)).
Proof.
  induction n as [|i IH]; intros Hn; [reflexivity|].
  destruct (lookup_lt_is_Some_2 L i) as [s Hs]; [lia|].
  cbn [findShapeAt_from]. rewrite Hs.
  rewrite (take_S_r _ _ _ Hs), rev_app_distr. cbn [rev app List.find].
  destruct (hit P s); [reflexivity|]. apply IH. lia.
Qed.

(** What the loop entered at [n] returns: the hit of highest index below
    [n], or nothing when no shape below [n] is hit. *)
Lemma findShapeAt_from_spec (L : list Shape.t) (n : nat) :
  match findShapeAt_from L n P with
  | Some s =>
      ∃ i, i < n ∧ L !! i = Some s ∧ hit P s = true
           ∧ ∀ j s', i < j < n → L !! j = Some s' → hit P s' = false
  | None => ∀ j s', j < n → L !! j = Some s' → hit P s' = false
  end.
Proof.
  induction n as [|i IH]; cbn [findShapeAt_from].
  - intros j s' Hj. lia.
  - destruct (L !! i) as [s|] eqn:Hs.
    + destruct (hit P s) eqn:Hhit.
      * exists i. split_and!; [lia|done|done|]. intros j s' Hj. lia.
      * destruct (findShapeAt_from L i P) as [r|].
        -- destruct IH as (k & Hk & Hr & Hhr & Habove).
           exists k. split_and!; [lia|done|done|].
           intros j s' Hj Hs'. destruct (decide (j = i)) as [->|Hne].
           ++ congruence.
           ++ apply (Habove j); [lia|done].
        -- intros j s' Hj Hs'. destruct (decide (j = i)) as [->|Hne].
           ++ congruence.
           ++ apply (IH j); [lia|done].
    + destruct (findShapeAt_from L i P) as [r|].
      * destruct IH as (k & Hk & Hr & Hhr & Habove).
        exists k. split_and!; [lia|done|done|].
        intros j s' Hj Hs'. destruct (decide (j = i)) as [->|Hne].
        -- congruence.
        -- apply (Habove j); [lia|done].
      * intros j s' Hj Hs'. destruct (decide (j = i)) as [->|Hne].
        -- congruence.
        -- apply (IH j); [lia|done].
Qed.

End HitTest.

(** C2.  For every point [P] and shape list [L], [findShapeAt] searches [L]
    from its last shape to its first and returns the first shape that its
    variant's test accepts at [P]: the result is [s] exactly when [s] stands
    at an index [i] of [L], is hit, and no shape at an index above [i] is
    hit, whatever the variants are; and the result is "no hit" exactly when
    no shape of [L] is hit. *)
Theorem findShapeAt_topmost (P : Point.t) (L : list Shape.t) :
  Geometry.findShapeAt L P = List.find (Geometry.hit P) (rev L)
  ∧ (∀ s, Geometry.findShapeAt L P = Some s ↔
          ∃ i, L !! i = Some s ∧ Geometry.hit P s = true
               ∧ ∀ j s', i < j → L !! j = Some s' → Geometry.hit P s' = false)
  ∧ (Geometry.findShapeAt L P = None ↔
     ∀ s, s ∈ L → Geometry.hit P s = false).
Proof.
  unfold Geometry.findShapeAt.
  pose proof (findShapeAt_from_spec P L (length L)) as Hspec.
  split; [|split].
  - rewrite findShapeAt_from_rev by lia. by rewrite firstn_all.
  - intros s. split.
    + intros Hres. rewrite Hres in Hspec.
      destruct Hspec as (i & Hi & Hs & Hhit & Habove).
      exists i. split_and!; [done|done|].
      intros j s' Hj Hs'. apply (Habove j); [|done].
      apply lookup_lt_Some in Hs'. lia.
    + intros (i & Hs & Hhit & Habove).
      destruct (Geometry.findShapeAt_from L (length L) P) as [r|].
      * destruct Hspec as (k & Hk & Hr & Hhr & Hkabove).
        destruct (Nat.lt_trichotomy i k) as [Hlt|[->|Hgt]].
        -- rewrite (Habove k r Hlt Hr) in Hhr. discriminate.
        -- congruence.
        -- apply lookup_lt_Some in Hs as Hlen.
           rewrite (Hkabove i s) in Hhit; [discriminate|lia|done].
      * apply lookup_lt_Some in Hs as Hlen.
        rewrite (Hspec i s Hlen Hs) in Hhit. discriminate.
  - split.
    + intros Hres. rewrite Hres in Hspec.
      intros s [j Hs]%list_elem_of_lookup.
      apply (Hspec j); [|done]. by apply lookup_lt_Some in Hs.
    + intros Hnone.
      destruct (Geometry.findShapeAt_from L (length L) P) as [r|]; [|done].
      destruct Hspec as (k & Hk & Hr & Hhr & _).
      rewrite Hnone in Hhr; [discriminate|].
      apply list_elem_of_lookup. eauto.
Qed.

Section Containment.

Import JS Geometry Containment.

Lemma bbox_of_bounding (pts : list Point.t) (b : bbox) :
  let r := fold_left bbox_add pts b in
  minX r = fold_left Math_min (map Point.x pts) (minX b)
  ∧ minY r = fold_left Math_min (map Point.y pts) (minY b)
  ∧ maxX r = fold_left Math_max (map Point.x pts) (maxX b)
  ∧ maxY r = fold_left Math_max (map Point.y pts) (maxY b).
Proof.
  revert b. induction pts as [|p pts IH]; intros b; [done|].
  cbn [fold_left map]. apply (IH (bbox_add b p)).
Qed.

(** The test in the loop of [findShapeAt] is the containment predicate. *)
Lemma hit_contains (p : Point.t) (s : Shape.t) : hit p s = contains p s.
Proof.
  unfold hit, contains, contains_with, variant_of.
  destruct (String.eqb (Shape.type s) "circle"); [reflexivity|].
  destruct (String.eqb (Shape.type s) "line"); [reflexivity|].
  destruct (String.eqb (Shape.type s) "arrow"); [reflexivity|].
  cbn [orb].
  destruct (String.eqb (Shape.type s) "pencil"); [|reflexivity].
  destruct (Shape.points s) as [[|p0 rest]|]; try reflexivity.
  unfold inside, bounding, least, greatest, bbox_of, geb.
  destruct (bbox_of_bounding (p0 :: rest) bbox0) as (-> & -> & -> & ->).
  reflexivity.
Qed.

Lemma findShapeAt_single (p : Point.t) (s : Shape.t) :
  findShapeAt [s] p = if hit p s then Some s else None.
Proof. reflexivity. Qed.

End Containment.

(** C3, as amended.  For every shape [S] and point [P], [findShapeAt] on the
    one-shape list [[S]] returns [S] if and only if [P] satisfies the
    containment predicate of the variant of [S]: circle, distance from [P] to
    [(x,y)] at most the radius; line and arrow, [P] in the bounding box of
    [(x,y)] and [(x2,y2)] grown by 6 on all sides; pencil, [P] in the bounding
    box of the stroke's points; any other type, [P] in
    [(x,y)]-[(x+width,y+height)]: where the radius is read as 30, the width as
    60 and the height as 40 when the property is absent, zero or [NaN]. *)
Theorem findShapeAt_single_iff_contains (S : Shape.t) (P : Point.t) :
  Geometry.findShapeAt [S] P = Some S ↔ Containment.contains P S = true.
Proof.
  rewrite findShapeAt_single, hit_contains.
  destruct (Containment.contains P S); split; congruence.
Qed.

(** C3 as stated fails where a dimension is present and zero: a circle of
    radius 0 at the origin is hit at (10,0), and a rectangle of width and
    height 0 at the origin is hit at (10,10), though neither point satisfies
    the predicate read with the stored dimensions. *)
Lemma findShapeAt_zero_dimension :
  Geometry.findShapeAt [Sample.dot] (Point.mk 10 0) = Some Sample.dot
  ∧ Containment.contains_as_stated (Point.mk 10 0) Sample.dot = false
  ∧ Geometry.findShapeAt [Sample.sliver] (Point.mk 10 10) = Some Sample.sliver
  ∧ Containment.contains_as_stated (Point.mk 10 10) Sample.sliver = false.
Proof. split_and!; reflexivity. Qed.

(** ** Dragging *)

Section Drag.

Import Whiteboard.
Local Open Scope float_scope.


(** What a pointer-move does during a drag session. *)
Lemma handleMouseMove_dragging (e : MouseEvent) (st : State) (canvas : Canvas) :
  canvasRef st = Some canvas →
  dragging_now st →
  handleMouseMove e st
  = commit (map (drag_to (dragState st) (getPointerPos canvas e))) st.
Proof.
  intros Hcanvas [Hdraft Hdrag]. unfold handleMouseMove.
  by rewrite Hcanvas, Hdraft, Hdrag.
Qed.

Lemma move_same_but_origin (s : Shape.t) (nx ny : float) :
  same_but_origin s (Shape.move s nx ny).
Proof. unfold same_but_origin. by split_and!. Qed.

End Drag.




(** ** Pencil drafts *)

Section Pencil.

Import Whiteboard.

Variable canvas : Canvas.

Lemma run_app (evs evs' : list Event) (st : State) :
  run (evs ++ evs') st = run evs' (run evs st).
Proof. apply fold_left_app. Qed.

Lemma drafting_pencil (st : State) :
  tool st = "pencil"%string → isDrawing st = true → drafting st = current st.
Proof. intros Htool Hdrawing. unfold drafting. by rewrite Htool, Hdrawing. Qed.

(** Pointer-moves during a draft only extend the draft, one point each. *)
Lemma run_moves_drafting (moves : list MouseEvent) :
  ∀ (st : State) (c : Shape.t) (pts : list Point.t),
    canvasRef st = Some canvas →
    tool st = "pencil"%string →
    isDrawing st = true →
    current st = Some c →
    Shape.points c = Some pts →
    run (map MouseMove moves) st
    = setCurrent (Some (Shape.with_points c (pts ++ map (getPointerPos canvas) moves))) st.
Proof.
  induction moves as [|e moves IH]; intros st c pts Hcanvas Htool Hdrawing Hcur Hpts.
  - cbn [map run fold_left]. rewrite app_nil_r.
    destruct st, c; cbn in *. by subst.
  - cbn [map run fold_left step]. fold (run (map MouseMove moves)).
    assert (handleMouseMove e st
            = setCurrent (Some (Shape.with_points c (pts ++ [getPointerPos canvas e]))) st)
      as ->.
    { unfold handleMouseMove.
      by rewrite Hcanvas, (drafting_pencil st Htool Hdrawing), Hcur, Hpts. }
    rewrite (IH _ (Shape.with_points c (pts ++ [getPointerPos canvas e]))
               (pts ++ [getPointerPos canvas e])); try done.
    by rewrite <- app_assoc.
Qed.

Lemma handleMouseDown_pencil (now : Z) (random : float) (answer : option string)
    (e : MouseEvent) (st : State) :
  canvasRef st = Some canvas →
  tool st = "pencil"%string →
  handleMouseDown now random answer e st
  = setCurrent (Some (draft_at now random (pageId st) (getPointerPos canvas e)))
      (setIsDrawing true st).
Proof.
  intros Hcanvas Htool. unfold handleMouseDown. by rewrite Hcanvas, Htool.
Qed.

Lemma handleMouseUp_drafting (e : MouseEvent) (st : State) (final : Shape.t) :
  canvasRef st = Some canvas →
  drafting st = Some final →
  handleMouseUp e st
  = setIsDrawing false
      (setCurrent None
         (fetch (POST_shape final)
            (commit (fun prev => prev ++ [final]) st))).
Proof.
  intros Hcanvas Hdraft. unfold handleMouseUp. by rewrite Hcanvas, Hdraft.
Qed.

(** A whole stroke: down, moves, up. *)
Lemma run_stroke (now : Z) (random : float) (answer : option string)
    (down : MouseEvent) (moves : list MouseEvent) (up : MouseEvent) (st : State) :
  canvasRef st = Some canvas →
  tool st = "pencil"%string →
  let final :=
    Shape.with_points (draft_at now random (pageId st) (getPointerPos canvas down))
      (map (getPointerPos canvas) (down :: moves)) in
  run (MouseDown now random answer down :: map MouseMove moves ++ [MouseUp up]) st
  = setIsDrawing false
      (setCurrent None
         (fetch (POST_shape final)
            (commit (fun prev => prev ++ [final]) st))).
Proof.
  intros Hcanvas Htool final.
  change (run (MouseDown now random answer down :: ?l) st)
    with (run l (handleMouseDown now random answer down st)).
  rewrite (handleMouseDown_pencil _ _ _ _ _ Hcanvas Htool), run_app.
  rewrite (run_moves_drafting moves _
             (draft_at now random (pageId st) (getPointerPos canvas down))
             [getPointerPos canvas down]); try done.
  change (run [MouseUp up] ?s) with (handleMouseUp up s).
  rewrite (handleMouseUp_drafting up _ final); [|done|].
  - by destruct st.
  - rewrite drafting_pencil; done.
Qed.

End Pencil.

(** C5.  With the pencil tool active, a pointer-down followed by [n]
    pointer-moves and a pointer-up appends exactly one shape to the list: its
    type is ['pencil'] and its points are the position of the pointer-down
    followed by the position of every move, in order, [n + 1] points in all;
    the draft is then cleared. *)
Theorem pencil_stroke_commits
    (st : State) (canvas : Canvas) (now : Z) (random : float)
    (answer : option string) (down : Whiteboard.MouseEvent)
    (moves : list Whiteboard.MouseEvent) (up : Whiteboard.MouseEvent) :
  canvasRef st = Some canvas →
  tool st = "pencil"%string →
  let st' := Whiteboard.run
               (Whiteboard.MouseDown now random answer down
                :: map Whiteboard.MouseMove moves ++ [Whiteboard.MouseUp up]) st in
  ∃ s pts,
    shapes st' = shapes st ++ [s]
    ∧ Shape.type s = "pencil"%string
    ∧ Shape.points s = Some pts
    ∧ pts = map (Whiteboard.getPointerPos canvas) (down :: moves)
    ∧ length pts = S (length moves)
    ∧ current st' = None
    ∧ isDrawing st' = false.
Proof.
  intros Hcanvas Htool st'. subst st'.
  rewrite (run_stroke canvas now random answer down moves up st Hcanvas Htool).
  eexists _, _. split_and!; try reflexivity.
  by rewrite length_map.
Qed.

(** C5 on the stroke of the specification: down at (0,0), moves to (5,5) and
    (10,0), release. *)
Lemma pencil_stroke_commits_witness :
  let st' := Whiteboard.run
               [Whiteboard.MouseDown 5 0.5 None (Whiteboard.mkMouse 0 0);
                Whiteboard.MouseMove (Whiteboard.mkMouse 5 5);
                Whiteboard.MouseMove (Whiteboard.mkMouse 10 0);
                Whiteboard.MouseUp (Whiteboard.mkMouse 10 0)]
               (setTool "pencil" Sample.fresh) in
  ∃ s pts,
    shapes st' = [] ++ [s]
    ∧ Shape.type s = "pencil"%string
    ∧ Shape.points s = Some pts
    ∧ pts = map (Whiteboard.getPointerPos Sample.canvas)
              [Whiteboard.mkMouse 0 0; Whiteboard.mkMouse 5 5; Whiteboard.mkMouse 10 0]
    ∧ length pts = 3
    ∧ current st' = None
    ∧ isDrawing st' = false.
Proof.
  apply (pencil_stroke_commits (setTool "pencil" Sample.fresh) Sample.canvas 5 0.5 None
           (Whiteboard.mkMouse 0 0)
           [Whiteboard.mkMouse 5 5; Whiteboard.mkMouse 10 0] (Whiteboard.mkMouse 10 0));
    reflexivity.
Defined.

(** ** Persistence of drags and drafts *)

Section Persistence.

Import Json Whiteboard.

Lemma commit_stored (f : list Shape.t → list Shape.t) (st : State) :
  localStorage (commit f st) !! "shapes"%string
  = Some (JSON_stringify (shapes (commit f st))).
Proof. apply lookup_insert_eq. Qed.

Lemma handleMouseUp_dragging (e : MouseEvent) (st : State) (canvas : Canvas) :
  canvasRef st = Some canvas →
  dragging_now st →
  handleMouseUp e st
  = setDragState (mkDrag false (offsetX (dragState st)) (offsetY (dragState st)) None)
      match find_by_id (shapeId (dragState st)) (shapes st), shapeId (dragState st) with
      | Some s, Some i => fetch (PUT_shape i s) st
      | _, _ => st
      end.
Proof.
  intros Hcanvas [Hdraft Hdrag]. unfold handleMouseUp.
  by rewrite Hcanvas, Hdraft, Hdrag.
Qed.

(** [shapes.find] returns a shape of the list with the id sought, when
    the list has one. *)
Lemma find_by_id_some (i : string) (l : list Shape.t) (s : Shape.t) :
  s ∈ l → Shape.id s = i →
  ∃ s0, find_by_id (Some i) l = Some s0 ∧ s0 ∈ l ∧ Shape.id s0 = i.
Proof.
  intros Hin Hid. unfold find_by_id.
  destruct (List.find _ l) as [s0|] eqn:Hfind.
  - apply find_some in Hfind as [Hin0 Hid0].
    exists s0. split_and!; [done|by apply list_elem_of_In|].
    cbn in Hid0. rewrite negb_involutive in Hid0. by apply String.eqb_eq.
  - apply list_elem_of_In in Hin.
    apply (find_none _ _ Hfind) in Hin. cbn in Hin.
    rewrite negb_involutive in Hin. apply String.eqb_neq in Hin. done.
Qed.

Lemma handleMouseMove_drafting (e : MouseEvent) (st : State) (c : Shape.t) :
  drafting st = Some c →
  let st' := handleMouseMove e st in
  shapes st' = shapes st ∧ localStorage st' = localStorage st
  ∧ requests st' = requests st.
Proof.
  intros Hdraft. unfold handleMouseMove. rewrite Hdraft.
  destruct (canvasRef st); [|done]. by destruct (Shape.points c).
Qed.

Lemma handleMouseDown_pencil_silent (now : Z) (random : float)
    (answer : option string) (e : MouseEvent) (st : State) :
  tool st = "pencil"%string →
  let st' := handleMouseDown now random answer e st in
  shapes st' = shapes st ∧ localStorage st' = localStorage st
  ∧ requests st' = requests st.
Proof.
  intros Htool. unfold handleMouseDown. rewrite Htool.
  by destruct (canvasRef st).
Qed.

End Persistence.

(** C1, as amended.  During an active drag session every pointer-move
    overwrites the local cache with the updated shape list on that move and
    sends no request; the PUT of the dragged shape is sent when the pointer is
    released, which changes neither the list nor the cache.  An in-progress
    pencil draft is persisted only at finalize: pointer-down and the moves of
    a draft change neither the list, the cache nor the requests sent, and
    pointer-up appends the draft to the list, overwrites the cache with the
    new list and sends the POST of the shape. *)
Theorem drag_cached_each_move_sent_on_release :
  (∀ (e : Whiteboard.MouseEvent) (st : State) (canvas : Canvas),
      canvasRef st = Some canvas → dragging_now st →
      let st' := Whiteboard.handleMouseMove e st in
      localStorage st' !! "shapes"%string = Some (Json.JSON_stringify (shapes st'))
      ∧ requests st' = requests st)
  ∧ (∀ (e : Whiteboard.MouseEvent) (st : State) (canvas : Canvas),
      canvasRef st = Some canvas → dragging_now st →
      let st' := Whiteboard.handleMouseUp e st in
      shapes st' = shapes st
      ∧ localStorage st' = localStorage st
      ∧ dragging (dragState st') = false
      ∧ ∀ s, s ∈ shapes st → dragged st s →
          ∃ s0, s0 ∈ shapes st ∧ Shape.id s0 = Shape.id s
                ∧ requests st' = requests st ++ [Whiteboard.PUT_shape (Shape.id s) s0])
  ∧ (∀ (now : Z) (random : float) (answer : option string)
       (e : Whiteboard.MouseEvent) (st : State),
      tool st = "pencil"%string →
      let st' := Whiteboard.handleMouseDown now random answer e st in
      shapes st' = shapes st ∧ localStorage st' = localStorage st
      ∧ requests st' = requests st)
  ∧ (∀ (e : Whiteboard.MouseEvent) (st : State) (draft : Shape.t),
      Whiteboard.drafting st = Some draft →
      let st' := Whiteboard.handleMouseMove e st in
      shapes st' = shapes st ∧ localStorage st' = localStorage st
      ∧ requests st' = requests st)
  ∧ (∀ (e : Whiteboard.MouseEvent) (st : State) (canvas : Canvas) (draft : Shape.t),
      canvasRef st = Some canvas → Whiteboard.drafting st = Some draft →
      let st' := Whiteboard.handleMouseUp e st in
      shapes st' = shapes st ++ [draft]
      ∧ localStorage st' !! "shapes"%string = Some (Json.JSON_stringify (shapes st'))
      ∧ requests st' = requests st ++ [Whiteboard.POST_shape draft]).
Proof.
  split_and!.
  - intros e st canvas Hcanvas Hnow st'. subst st'.
    rewrite (handleMouseMove_dragging e st canvas Hcanvas Hnow).
    split; [apply commit_stored|done].
  - intros e st canvas Hcanvas Hnow st'. subst st'.
    rewrite (handleMouseUp_dragging e st canvas Hcanvas Hnow).
    split_and!.
    + by destruct (Whiteboard.find_by_id _ _), (shapeId (dragState st)).
    + by destruct (Whiteboard.find_by_id _ _), (shapeId (dragState st)).
    + done.
    + intros s Hin Hdragged. unfold dragged in Hdragged. rewrite Hdragged.
      destruct (find_by_id_some (Shape.id s) (shapes st) s Hin eq_refl)
        as (s0 & -> & Hin0 & Hid0).
      by exists s0.
  - apply handleMouseDown_pencil_silent.
  - apply handleMouseMove_drafting.
  - intros e st canvas draft Hcanvas Hdraft st'. subst st'.
    rewrite (handleMouseUp_drafting canvas e st draft Hcanvas Hdraft).
    split_and!; [done|apply lookup_insert_eq|done].
Qed.

(** C1 as amended, at a state in the middle of a drag: the move is cached
    and nothing is sent. *)
Lemma drag_cached_each_move_witness :
  let st := Whiteboard.run
              [Whiteboard.MouseDown 0 0 None (Whiteboard.mkMouse 110 105)]
              (setShapes [Sample.shape "a" "rectangle" 100 100] Sample.fresh) in
  let st' := Whiteboard.handleMouseMove (Whiteboard.mkMouse 200 150) st in
  localStorage st' !! "shapes"%string = Some (Json.JSON_stringify (shapes st'))
  ∧ requests st' = requests st.
Proof.
  intros st st'.
  apply (proj1 drag_cached_each_move_sent_on_release
           (Whiteboard.mkMouse 200 150) st Sample.canvas).
  - reflexivity.
  - split; reflexivity.
Defined.

(** C1 as stated fails: a shape loaded at (100,100) is grabbed at (110,105)
    and moved to (200,150).  The move repositions it and rewrites the cache,
    yet no request has been sent after it; the PUT leaves at the release. *)
Lemma drag_move_sends_no_request :
  let moved := Sample.shape "a" "rectangle" 190 145 in
  let st := Whiteboard.run
              [Whiteboard.MouseDown 0 0 None (Whiteboard.mkMouse 110 105);
               Whiteboard.MouseMove (Whiteboard.mkMouse 200 150)]
              (setShapes [Sample.shape "a" "rectangle" 100 100] Sample.fresh) in
  shapes st = [moved]
  ∧ localStorage st !! "shapes"%string = Some (Json.JSON_stringify [moved])
  ∧ requests st = []
  ∧ requests (Whiteboard.handleMouseUp (Whiteboard.mkMouse 200 150) st)
    = [Whiteboard.PUT_shape "a" moved].
Proof. split_and!; reflexivity. Qed.

(** ** Quick-add *)

Section QuickAdd.

Import Whiteboard.

Lemma addShape_appends (now : Z) (r_id r_x r_y : float) (type : string) (st : State) :
  shapes (addShape now r_id r_x r_y type st)
  = shapes st ++ [new_shape now r_id r_x r_y type (pageId st)].
Proof. reflexivity. Qed.

(** Every quick-added circle has radius 30 and the active page. *)
Lemma addShape_circle (now : Z) (r_id r_x r_y : float) (st : State) :
  ∃ s, shapes (addShape now r_id r_x r_y "circle" st) = shapes st ++ [s]
       ∧ Shape.radius s = Some 30%float
       ∧ Shape.pageId s = pageId st.
Proof. eexists. rewrite addShape_appends. by split_and!. Qed.

(** The id is a function of the clock and of the integer part of a
    thousand times the random draw. *)
Lemma uid_collides (prefix : string) (now : Z) (r r' : float) :
  JS.string_of_floor (r * 1000) = JS.string_of_floor (r' * 1000) →
  uid prefix now r = uid prefix now r'.
Proof. unfold uid. by intros ->. Qed.

End QuickAdd.

(** C6 fails on the ids.  Two calls of [addShape('circle')] in the same
    millisecond, whose random draws 0.5 and 0.50048828125 have the same first
    three decimals, append two circles of radius 30 on the active page that
    carry the same id. *)
Theorem addShape_same_millisecond_same_id :
  let st := Whiteboard.run
              [Whiteboard.AddShape 1700000000000 0.5 0.25 0.75 "circle";
               Whiteboard.AddShape 1700000000000 0.50048828125 0.5 0.125 "circle"]
              Sample.fresh in
  map Shape.id (shapes st) = ["shape_1700000000000_500"; "shape_1700000000000_500"]%string
  ∧ map Shape.radius (shapes st) = [Some 30%float; Some 30%float]
  ∧ map Shape.pageId (shapes st) = [pageId Sample.fresh; pageId Sample.fresh]
  ∧ map Shape.x (shapes st) = [150%float; 200%float].
Proof. split_and!; reflexivity. Qed.

(** ** Loading at startup *)

Section Load.

Import Json Whiteboard.

(** A successful fetch replaces the list and overwrites the cache. *)
Lemma load_fetched (st : State) (body : text) (j : json) (data : list Shape.t) :
  JSON_parse body = Some j →
  shapes_of_json j = Some data →
  ∃ st', load (Response true body) st = Fulfilled st'
         ∧ shapes st' = data
         ∧ localStorage st' !! "shapes"%string = Some (JSON_stringify data).
Proof.
  intros Hbody Hdata. unfold load. rewrite Hbody, Hdata.
  eexists. split_and!; [done|done|apply lookup_insert_eq].
Qed.

(** A failed fetch, of any kind, leads to the cache. *)
Lemma load_failed (r : FetchResult) (st : State) :
  fetch_failed r = true → load r st = load_saved (asked st).
Proof.
  unfold load, fetch_failed. destruct r as [|[] body]; try done.
  by destruct (JSON_parse body).
Qed.

(** With a cached list, the list is taken from the cache. *)
Lemma load_saved_cached (st : State) (j : json) (l : list Shape.t) :
  localStorage st !! "shapes"%string = Some (Doc j) →
  shapes_of_json j = Some l →
  load_saved st = Fulfilled (setShapes l st).
Proof.
  intros Hsaved Hl. unfold load_saved, localStorage_getItem.
  rewrite Hsaved. cbn. by rewrite Hl.
Qed.

(** Without a cached list the state is left as it is: at startup, the
    empty list. *)
Lemma load_saved_absent (st : State) :
  localStorage st !! "shapes"%string = None ∨
  localStorage st !! "shapes"%string = Some EmptyStr →
  load_saved st = Fulfilled st.
Proof.
  unfold load_saved, localStorage_getItem. by intros [-> | ->].
Qed.

(** With a cached string that is not JSON, [JSON.parse] throws after the
    [try] block, and the promise of [load] rejects. *)
Lemma load_saved_malformed (st : State) :
  localStorage st !! "shapes"%string = Some Malformed →
  load_saved st = Rejected "SyntaxError" st.
Proof.
  unfold load_saved, localStorage_getItem. by intros ->.
Qed.

End Load.

(** C7 fails where the cache holds a string that is not JSON.  The fetch
    fails (network error, or a response that is not [ok]) and the fallback
    reads the cache; [JSON.parse] then throws outside the [try] block and
    [load] ends in an uncaught [SyntaxError] with the list still empty.  By
    contrast an absent cache gives the empty list in silence, and a fetched
    list replaces the state and the cache. *)
Theorem load_rejects_on_malformed_cache :
  let st := initial (Some Sample.canvas) (Some 1%float)
              {[ "shapes"%string := Json.Malformed ]} in
  let ok := initial (Some Sample.canvas) (Some 1%float) ∅ in
  let a := Sample.shape "a" "rectangle" 100 100 in
  Whiteboard.load Whiteboard.NetworkError st
  = Whiteboard.Rejected "SyntaxError" (asked st)
  ∧ Whiteboard.load (Whiteboard.Response false Json.EmptyStr) st
    = Whiteboard.Rejected "SyntaxError" (asked st)
  ∧ shapes (asked st) = []
  ∧ Whiteboard.load Whiteboard.NetworkError ok = Whiteboard.Fulfilled (asked ok)
  ∧ Whiteboard.load (Whiteboard.Response true (Json.JSON_stringify [a])) st
    = Whiteboard.Fulfilled
        (localStorage_setItem "shapes" (Json.JSON_stringify [a]) (setShapes [a] (asked st))).
Proof. split_and!; reflexivity. Qed.

(** ** Defaults of a quick-added shape *)

(** C9, as amended.  For every type, quick-add appends one shape that
    carries the id made by [uid], the type, the active page id and an origin
    in [100 + r*200, 80 + r*200]; a circle carries [radius = 30], a line or
    arrow carries [x2 = x + 80] and [y2 = y + 0], a text carries its content
    and [fontSize = 16].  No quick-added shape carries a width, a height or a
    color: for a rectangle the renderer fills and strokes a 60 by 40 box in
    ['rgba(0,0,0,0.05)'] and the hit test uses the same 60 by 40 box, from
    their own defaults. *)
Theorem addShape_populates
    (Math_atan2 : float → float → float) (Math_cos Math_sin : float → float)
    (now : Z) (r_id r_x r_y : float) (type : string) (st : State) :
  ∃ s,
    shapes (Whiteboard.addShape now r_id r_x r_y type st) = shapes st ++ [s]
    ∧ Shape.id s = uid "shape" now r_id
    ∧ Shape.type s = type
    ∧ Shape.pageId s = pageId st
    ∧ Shape.x s = (100 + r_x * 200)%float
    ∧ Shape.y s = (80 + r_y * 200)%float
    ∧ Shape.width s = None ∧ Shape.height s = None ∧ Shape.color s = None
    ∧ (type = "circle"%string → Shape.radius s = Some 30%float)
    ∧ (type = "line"%string ∨ type = "arrow"%string →
       Shape.x2 s = Some (Shape.x s + 80)%float
       ∧ Shape.y2 s = Some (Shape.y s + 0)%float)
    ∧ (type = "text"%string →
       Shape.content s = Some "Text"%string ∧ Shape.fontSize s = Some 16%float)
    ∧ (type = "rectangle"%string →
       Renderer.draw_variant Math_atan2 Math_cos Math_sin s
       = [ Renderer.set_fillStyle "rgba(0,0,0,0.05)";
           Renderer.fillRect 0 0 60 40;
           Renderer.strokeRect 0 0 60 40 ]
       ∧ ∀ p, Geometry.hit p s
              = Containment.inside p
                  (Containment.mkrect (Point.mk (Shape.x s) (Shape.y s))
                     (Point.mk (Shape.x s + 60)%float (Shape.y s + 40)%float))).
Proof.
  exists (Whiteboard.new_shape now r_id r_x r_y type (pageId st)).
  split_and!; try reflexivity.
  - by intros ->.
  - by intros [-> | ->].
  - by intros ->.
  - by intros ->.
Qed.

(** C9 as stated fails: a quick-added rectangle carries neither a width,
    nor a height, nor a fill color. *)
Lemma addShape_rectangle_bare :
  shapes (Whiteboard.addShape 1700000000000 0.5 0.25 0.75 "rectangle" Sample.fresh)
  = [ Shape.mk "shape_1700000000000_500" "rectangle" 150 230 "page_1"
        None None None None None None None None None None ].
Proof. reflexivity. Qed.

(** ** What the renderer reads *)

Section Rendering.

Import Whiteboard.

Variable Math_atan2 : float → float → float.
Variables Math_cos Math_sin : float → float.

Let draw := Renderer.draw Math_atan2 Math_cos Math_sin.

(** [draw] reads the canvas, the pixel ratio, the list and the selection. *)
Lemma draw_reads (st1 st2 : State) :
  canvasRef st1 = canvasRef st2 →
  devicePixelRatio st1 = devicePixelRatio st2 →
  shapes st1 = shapes st2 →
  selectedId st1 = selectedId st2 →
  draw st1 = draw st2.
Proof.
  intros Hcanvas Hratio Hshapes Hsel. unfold draw, Renderer.draw.
  by rewrite Hcanvas, Hratio, Hshapes, Hsel.
Qed.

(** A pointer-down with the pencil tool and the moves of a draft leave
    those four as they are. *)
Lemma handleMouseDown_pencil_draw (now : Z) (random : float)
    (answer : option string) (e : MouseEvent) (st : State) :
  tool st = "pencil"%string →
  draw (handleMouseDown now random answer e st) = draw st.
Proof.
  intros Htool. apply draw_reads; unfold handleMouseDown; rewrite Htool;
    by destruct (canvasRef st) eqn:Hcanvas.
Qed.

Lemma handleMouseMove_drafting_draw (e : MouseEvent) (st : State) (draft : Shape.t) :
  drafting st = Some draft →
  draw (handleMouseMove e st) = draw st.
Proof.
  intros Hdraft. apply draw_reads; unfold handleMouseMove; rewrite Hdraft;
    destruct (canvasRef st) eqn:Hcanvas; try done; by destruct (Shape.points draft).
Qed.

End Rendering.

(** C10.  What [draw] puts on the canvas is a function of the committed
    shape list and the selected id (with the canvas and its pixel ratio): two
    states that agree on these are drawn alike, whatever their tool, draft
    and drag session are.  In particular the draft is not drawn while it is
    in progress: after a pointer-down with the pencil tool and any number of
    moves, [draw] produces what it produced before the stroke began. *)
Theorem draw_ignores_draft
    (Math_atan2 : float → float → float) (Math_cos Math_sin : float → float) :
  let draw := Renderer.draw Math_atan2 Math_cos Math_sin in
  (∀ st1 st2 : State,
      canvasRef st1 = canvasRef st2 →
      devicePixelRatio st1 = devicePixelRatio st2 →
      shapes st1 = shapes st2 →
      selectedId st1 = selectedId st2 →
      draw st1 = draw st2)
  ∧ (∀ (st : State) (t : string) (b : bool) (c : option Shape.t) (d : DragState),
      draw (setTool t (setIsDrawing b (setCurrent c (setDragState d st)))) = draw st)
  ∧ (∀ (st : State) (canvas : Canvas) (now : Z) (random : float)
       (answer : option string) (down : Whiteboard.MouseEvent)
       (moves : list Whiteboard.MouseEvent),
      canvasRef st = Some canvas →
      tool st = "pencil"%string →
      let st' := Whiteboard.run
                   (Whiteboard.MouseDown now random answer down
                    :: map Whiteboard.MouseMove moves) st in
      (∃ draft, Whiteboard.drafting st' = Some draft
                ∧ Shape.points draft
                  = Some (map (Whiteboard.getPointerPos canvas) (down :: moves)))
      ∧ draw st' = draw st).
Proof.
  intros draw. split_and!.
  - apply draw_reads.
  - intros st t b c d. by apply draw_reads.
  - intros st canvas now random answer down moves Hcanvas Htool st'. subst st'.
    change (Whiteboard.run (Whiteboard.MouseDown now random answer down :: ?l) st)
      with (Whiteboard.run l (Whiteboard.handleMouseDown now random answer down st)).
    rewrite (handleMouseDown_pencil canvas _ _ _ _ _ Hcanvas Htool).
    rewrite (run_moves_drafting canvas moves _
               (draft_at now random (pageId st) (Whiteboard.getPointerPos canvas down))
               [Whiteboard.getPointerPos canvas down]); try done.
    split.
    + eexists. split; [by rewrite drafting_pencil|reflexivity].
    + by apply draw_reads.
Qed.

(** C10 on a stroke in progress: the draft holds three points and the
    canvas shows the one committed shape, as before the stroke. *)
Lemma draw_ignores_draft_witness :
  let draw := Renderer.draw (fun _ _ => 0%float) (fun _ => 1%float) (fun _ => 0%float) in
  let st := setTool "pencil" (setShapes [Sample.shape "a" "rectangle" 100 100] Sample.fresh) in
  let st' := Whiteboard.run
               [Whiteboard.MouseDown 5 0.5 None (Whiteboard.mkMouse 0 0);
                Whiteboard.MouseMove (Whiteboard.mkMouse 5 5);
                Whiteboard.MouseMove (Whiteboard.mkMouse 10 0)] st in
  draw st' = draw st.
Proof.
  intros draw st st'.
  apply (proj1 (draw_ignores_draft (fun _ _ => 0%float) (fun _ => 1%float)
                  (fun _ => 0%float)) st' st); reflexivity.
Defined.

(** ** The cache round trip *)

Section RoundTrip.

Import Json Whiteboard.

Lemma get_app (k : string) (ms ms' : list (string * json)) :
  get k (ms ++ ms') = match get k ms' with
                      | Some v => Some v
                      | None => get k ms
                      end.
Proof.
  induction ms as [|[k' v] ms IH]; cbn [app get].
  - by destruct (get k ms').
  - rewrite IH. by destruct (get k ms').
Qed.

Lemma get_member_same {A} (k : string) (enc : A → json) (o : option A) :
  get k (member k enc o) = enc <$> o.
Proof. destruct o; cbn; [|done]. by rewrite String.eqb_refl. Qed.

Lemma get_member_other {A} (k k' : string) (enc : A → json) (o : option A) :
  String.eqb k k' = false → get k (member k' enc o) = None.
Proof. intros Hne. destruct o; cbn; [|done]. by rewrite Hne. Qed.

Lemma as_num_exact (f : float) :
  exact f = true → as_num (json_of_number f) = Some f.
Proof.
  unfold exact, json_of_number. by destruct (PrimFloat.classify f).
Qed.

Lemma point_round_trip (p : Point.t) :
  exact_point p = true → point_of_json (json_of_point p) = Some p.
Proof.
  destruct p as [x y]. unfold exact_point. cbn [Point.x Point.y].
  intros [Hx Hy]%andb_prop. cbn.
  rewrite (as_num_exact x Hx), (as_num_exact y Hy). reflexivity.
Qed.

Lemma mapM_round_trip {A} (enc : A → json) (dec : json → option A)
    (P : A → bool) (l : list A) :
  (∀ a, P a = true → dec (enc a) = Some a) →
  forallb P l = true →
  mapM dec (map enc l) = Some l.
Proof.
  intros Hdec. induction l as [|a l IH]; [done|].
  cbn [forallb]. intros [Ha Hl]%andb_prop.
  cbn [map mapM]. rewrite (Hdec a Ha). cbn. rewrite (IH Hl). reflexivity.
Qed.

Lemma points_round_trip (pts : list Point.t) :
  forallb exact_point pts = true →
  as_points (JArr (map json_of_point pts)) = Some pts.
Proof. apply mapM_round_trip, point_round_trip. Qed.

(** An optional property comes back as it was stored. *)
Lemma optional_member {A} (k : string) (enc : A → json) (dec : json → option A)
    (P : A → bool) (o : option A) (ms : list (string * json)) :
  (∀ a, P a = true → dec (enc a) = Some a) →
  if_present P o = true →
  get k ms = enc <$> o →
  optional k dec ms = Some o.
Proof.
  intros Hdec HP Hget. unfold optional. rewrite Hget.
  destruct o as [a|]; cbn; [|done]. by rewrite (Hdec a HP).
Qed.

End RoundTrip.

Section RoundTripShape.

Import Json Whiteboard.

Lemma if_present_any {A} (o : option A) : if_present (λ _, true) o = true.
Proof. by destruct o. Qed.

Lemma as_str_JStr (s : string) : (λ _, true) s = true → as_str (JStr s) = Some s.
Proof. done. Qed.

Lemma members_of (s : Shape.t) :
  ∃ ms, json_of_shape s = JObj ms
        ∧ get "id" ms = Some (JStr (Shape.id s))
        ∧ get "type" ms = Some (JStr (Shape.type s))
        ∧ get "x" ms = Some (json_of_number (Shape.x s))
        ∧ get "y" ms = Some (json_of_number (Shape.y s))
        ∧ get "pageId" ms = Some (JStr (Shape.pageId s))
        ∧ get "width" ms = json_of_number <$> Shape.width s
        ∧ get "height" ms = json_of_number <$> Shape.height s
        ∧ get "radius" ms = json_of_number <$> Shape.radius s
        ∧ get "x2" ms = json_of_number <$> Shape.x2 s
        ∧ get "y2" ms = json_of_number <$> Shape.y2 s
        ∧ get "points" ms = (λ pts, JArr (map json_of_point pts)) <$> Shape.points s
        ∧ get "content" ms = JStr <$> Shape.content s
        ∧ get "fontSize" ms = json_of_number <$> Shape.fontSize s
        ∧ get "fontFamily" ms = JStr <$> Shape.fontFamily s
        ∧ get "color" ms = JStr <$> Shape.color s.
Proof.
  eexists. split; [reflexivity|].
  split_and!; rewrite !get_app, ?get_member_same;
    rewrite ?get_member_other by reflexivity; cbn [get String.eqb Ascii.eqb Bool.eqb];
    try reflexivity.
  - by destruct (Shape.width s).
  - by destruct (Shape.height s).
  - by destruct (Shape.radius s).
  - by destruct (Shape.x2 s).
  - by destruct (Shape.y2 s).
  - by destruct (Shape.points s).
  - by destruct (Shape.content s).
  - by destruct (Shape.fontSize s).
  - by destruct (Shape.fontFamily s).
  - by destruct (Shape.color s).
Qed.

(** A storable shape is read back as it was written. *)
Lemma shape_round_trip (s : Shape.t) :
  storable s = true → shape_of_json (json_of_shape s) = Some s.
Proof.
  unfold storable. rewrite !andb_true_iff.
  intros [[[[[[[[Hx Hy] Hw] Hh] Hr] Hx2] Hy2] Hpts] Hfs].
  destruct (members_of s)
    as (ms & -> & Hid & Htype & Hgx & Hgy & Hpage & Hgw & Hgh & Hgr & Hgx2 & Hgy2
        & Hgpts & Hgc & Hgfs & Hgff & Hgcol).
  unfold shape_of_json.
  rewrite Hid, Htype, Hgx, Hgy, Hpage.
  rewrite (optional_member "width" _ _ exact _ ms as_num_exact Hw Hgw).
  rewrite (optional_member "height" _ _ exact _ ms as_num_exact Hh Hgh).
  rewrite (optional_member "radius" _ _ exact _ ms as_num_exact Hr Hgr).
  rewrite (optional_member "x2" _ _ exact _ ms as_num_exact Hx2 Hgx2).
  rewrite (optional_member "y2" _ _ exact _ ms as_num_exact Hy2 Hgy2).
  rewrite (optional_member "points" _ _ (forallb exact_point) _ ms
             points_round_trip Hpts Hgpts).
  rewrite (optional_member "content" _ _ (λ _, true) _ ms
             as_str_JStr (if_present_any _) Hgc).
  rewrite (optional_member "fontSize" _ _ exact _ ms as_num_exact Hfs Hgfs).
  rewrite (optional_member "fontFamily" _ _ (λ _, true) _ ms
             as_str_JStr (if_present_any _) Hgff).
  rewrite (optional_member "color" _ _ (λ _, true) _ ms
             as_str_JStr (if_present_any _) Hgcol).
  cbn. rewrite (as_num_exact _ Hx), (as_num_exact _ Hy). cbn.
  by destruct s.
Qed.

Lemma shapes_round_trip (l : list Shape.t) :
  forallb storable l = true →
  shapes_of_json (JArr (map json_of_shape l)) = Some l.
Proof. apply mapM_round_trip, shape_round_trip. Qed.

End RoundTripShape.

(** C8, as amended.  For every shape list whose numbers are finite and not
    [-0], writing the list to the cache as every mutation does and reading it
    back as [load] does when the fetch fails gives the list again: the same
    shapes with the same properties, in the same order. *)
Theorem cache_round_trip (l : list Shape.t) (r : Whiteboard.FetchResult) (st : State) :
  forallb storable l = true →
  fetch_failed r = true →
  let cached := localStorage_setItem "shapes" (Json.JSON_stringify l) st in
  Json.JSON_parse (Json.JSON_stringify l) ≫= Json.shapes_of_json = Some l
  ∧ ∃ st', Whiteboard.load r cached = Whiteboard.Fulfilled st' ∧ shapes st' = l.
Proof.
  intros Hl Hr cached.
  pose proof (shapes_round_trip l Hl) as Htrip.
  split; [done|].
  rewrite (load_failed r cached Hr).
  rewrite (load_saved_cached (asked cached) (Json.JArr (map Json.json_of_shape l)) l);
    [by eexists| |done].
  apply lookup_insert_eq.
Qed.

(** C8 on a list of three shapes, one of each kind of property. *)
Lemma cache_round_trip_witness :
  let l := [ Whiteboard.new_shape 1700000000000 0.5 0.25 0.75 "circle" "page_1";
             Whiteboard.new_shape 1700000000001 0.5 0.5 0.125 "arrow" "page_1";
             Shape.with_points
               (draft_at 1700000000002 0.25 "page_1" (Point.mk 0 0))
               [Point.mk 0 0; Point.mk 5 5; Point.mk 10 0] ] in
  let cached := localStorage_setItem "shapes" (Json.JSON_stringify l) Sample.fresh in
  Json.JSON_parse (Json.JSON_stringify l) ≫= Json.shapes_of_json = Some l
  ∧ ∃ st', Whiteboard.load Whiteboard.NetworkError cached = Whiteboard.Fulfilled st'
           ∧ shapes st' = l.
Proof.
  intros l cached.
  apply (cache_round_trip l Whiteboard.NetworkError Sample.fresh); reflexivity.
Defined.

(** C8 as stated fails on numbers that JSON does not carry.  A fetched
    shape whose [x] is written [1e999] is held with [x = Infinity]; the cache
    then stores [null] for it, and a reload from the cache does not give back
    a shape with that [x].  A shape at [x = -0] is given back at [x = 0]. *)
Lemma cache_loses_infinity :
  let far := Sample.shape "far" "rectangle" infinity 0 in
  let body := Json.Doc (Json.JArr [Json.JObj
                [("id", Json.JStr "far"); ("type", Json.JStr "rectangle");
                 ("x", Json.JNum infinity); ("y", Json.JNum 0);
                 ("pageId", Json.JStr "page_1")]]) in
  let null_x := Json.JArr [Json.JObj
                  [("id", Json.JStr "far"); ("type", Json.JStr "rectangle");
                   ("x", Json.JNull); ("y", Json.JNum 0);
                   ("pageId", Json.JStr "page_1")]] in
  let loaded := localStorage_setItem "shapes" (Json.Doc null_x)
                  (setShapes [far] (asked Sample.fresh)) in
  Whiteboard.load (Whiteboard.Response true body) Sample.fresh
  = Whiteboard.Fulfilled loaded
  ∧ localStorage loaded !! "shapes"%string = Some (Json.JSON_stringify (shapes loaded))
  ∧ Whiteboard.load Whiteboard.NetworkError loaded = Whiteboard.Untyped null_x
  ∧ Json.shapes_of_json null_x = None
  ∧ Json.JSON_parse (Json.JSON_stringify [Sample.shape "z" "rectangle" (-0) 0])
      ≫= Json.shapes_of_json
    = Some [Sample.shape "z" "rectangle" 0 0]
  ∧ PrimFloat.classify (-0) = NZero ∧ PrimFloat.classify 0 = PZero.
Proof. split_and!; reflexivity. Qed.

(** * Further properties of the component *)

(** ** What every event keeps *)

Section Events.

Import Json Whiteboard.

(** The three ways in which a handler treats the list. *)
Lemma step_change (st : State) (ev : Event) : change st ev (step st ev).
Proof.
  destruct ev as [now random answer e|e|e|now r_id r_x r_y type|t|id];
    cbn [step].
  - unfold handleMouseDown. destruct (canvasRef st) as [canvas|] eqn:Hcanvas;
      [|by apply kept].
    destruct (String.eqb (tool st) "pencil"); [by apply kept|].
    destruct (String.eqb (tool st) "text") eqn:Htool.
    + destruct answer as [text|]; [|by apply kept].
      destruct (String.eqb text "") eqn:Hempty; [by apply kept|].
      eapply appended; [|reflexivity|apply lookup_insert_eq].
      apply (typed st now random e canvas text); [done| |].
      * by apply String.eqb_eq.
      * by apply String.eqb_neq.
    + destruct (Geometry.findShapeAt _ _); by apply kept.
  - unfold handleMouseMove. destruct (canvasRef st) as [canvas|] eqn:Hcanvas;
      [|by apply kept].
    destruct (drafting st) as [prev|] eqn:Hdraft.
    + destruct (Shape.points prev); by apply kept.
    + destruct (dragging (dragState st)) eqn:Hdrag; [|by apply kept].
      by eapply (repositioned _ _ _ e canvas);
        [reflexivity|done|split|reflexivity|apply lookup_insert_eq].
  - unfold handleMouseUp. destruct (canvasRef st); [|by apply kept].
    destruct (drafting st) as [final|] eqn:Hdraft.
    + eapply (appended _ _ _ final); [by apply drawn|reflexivity|apply lookup_insert_eq].
    + destruct (dragging (dragState st)); [|by apply kept].
      destruct (find_by_id _ _), (shapeId (dragState st)); by apply kept.
  - eapply appended; [apply quick_added|reflexivity|apply lookup_insert_eq].
  - by apply kept.
  - by apply kept.
Qed.

Lemma run_cons (ev : Event) (evs : list Event) (st : State) :
  run (ev :: evs) st = run evs (step st ev).
Proof. reflexivity. Qed.

(** A property that every event keeps is kept by every sequence of events. *)
Lemma run_invariant (I : State → Prop) :
  (∀ st ev, I st → I (step st ev)) →
  ∀ evs st, I st → I (run evs st).
Proof.
  intros Hstep evs. induction evs as [|ev evs IH]; intros st HI; [done|].
  rewrite run_cons. by apply IH, Hstep.
Qed.

Lemma drag_to_same_but_origin (d : DragState) (p : Point.t) (s : Shape.t) :
  same_but_origin s (drag_to d p s).
Proof.
  unfold drag_to. destruct (other_id (shapeId d) s).
  - unfold same_but_origin. by split_and!.
  - apply move_same_but_origin.
Qed.

Lemma same_but_origin_refl (s : Shape.t) : same_but_origin s s.
Proof. unfold same_but_origin. by split_and!. Qed.

Lemma same_but_origin_trans (s1 s2 s3 : Shape.t) :
  same_but_origin s1 s2 → same_but_origin s2 s3 → same_but_origin s1 s3.
Proof.
  unfold same_but_origin. intros H12 H23.
  destruct_and!. split_and!; congruence.
Qed.

(** What an event does to the shapes already in the list. *)
Lemma step_frame (st : State) (ev : Event) :
  ∃ kept_shapes added,
    shapes (step st ev) = kept_shapes ++ added
    ∧ Forall2 same_but_origin (shapes st) kept_shapes.
Proof.
  destruct (step_change st ev) as [Hsame _|s _ Happ _|e canvas _ _ _ Hmap _].
  - exists (shapes st), []. rewrite Hsame, app_nil_r. split; [done|].
    apply Forall2_same_length_lookup_2; [done|].
    intros i x y Hx Hy. assert (x = y) as -> by congruence.
    apply same_but_origin_refl.
  - exists (shapes st), [s]. split; [done|].
    apply Forall2_same_length_lookup_2; [done|].
    intros i x y Hx Hy. assert (x = y) as -> by congruence.
    apply same_but_origin_refl.
  - exists (map (drag_to (dragState st) (getPointerPos canvas e)) (shapes st)), [].
    rewrite Hmap, app_nil_r. split; [done|].
    apply Forall2_fmap_r, Forall2_same_length_lookup_2; [done|].
    intros i x y Hx Hy. assert (x = y) as -> by congruence.
    apply drag_to_same_but_origin.
Qed.

End Events.

(** X1.  After any sequence of events, either the shape list and the cache
    are what they were before it, or the cache holds the serialisation of the
    list in memory: no event changes the list without rewriting the cache
    with it. *)
Theorem cache_follows_list (evs : list Whiteboard.Event) (st : State) :
  (shapes (Whiteboard.run evs st) = shapes st
   ∧ localStorage (Whiteboard.run evs st) = localStorage st)
  ∨ in_sync (Whiteboard.run evs st).
Proof.
  revert st. induction evs as [|ev evs IH]; intros st; [by left|].
  rewrite run_cons.
  destruct (IH (Whiteboard.step st ev)) as [[Hshapes Hcache]|Hsync]; [|by right].
  destruct (step_change st ev) as [Hsame Hsame'|s _ _ Hsync|e canvas _ _ _ _ Hsync].
  - left. split; congruence.
  - right. unfold in_sync in *. congruence.
  - right. unfold in_sync in *. congruence.
Qed.

(** X2.  After any sequence of events the list is the list before it, each
    shape in its place and with every property but its origin as it was,
    followed by the shapes added since: no event deletes or reorders shapes,
    or changes the id, type, page or dimensions of one. *)
Theorem shapes_only_move_or_grow (evs : list Whiteboard.Event) (st : State) :
  ∃ kept_shapes added,
    shapes (Whiteboard.run evs st) = kept_shapes ++ added
    ∧ Forall2 same_but_origin (shapes st) kept_shapes.
Proof.
  revert st. induction evs as [|ev evs IH]; intros st.
  - exists (shapes st), []. rewrite app_nil_r. split; [done|].
    apply Forall2_same_length_lookup_2; [done|].
    intros i x y Hx Hy. assert (x = y) as -> by congruence.
    apply same_but_origin_refl.
  - rewrite run_cons.
    destruct (step_frame st ev) as (k1 & a1 & Hstep & Hk1).
    destruct (IH (Whiteboard.step st ev)) as (k2 & a2 & Hrun & Hk2).
    rewrite Hstep in Hk2.
    apply Forall2_app_inv_l in Hk2 as (k2a & k2b & Hk2a & _ & ->).
    exists k2a, (k2b ++ a2). split; [by rewrite Hrun, app_assoc|].
    eapply Forall2_trans; [|exact Hk1|exact Hk2a].
    apply same_but_origin_trans.
Qed.

Section Pages.

Import Json Whiteboard.

Lemma step_pageId (st : State) (ev : Event) : pageId (step st ev) = pageId st.
Proof.
  destruct ev; cbn [step]; try reflexivity;
    unfold handleMouseDown, handleMouseMove, handleMouseUp;
    repeat case_match; reflexivity.
Qed.

Lemma drafting_current (st : State) (s : Shape.t) :
  drafting st = Some s → current st = Some s.
Proof.
  unfold drafting. by destruct (String.eqb (tool st) "pencil" && isDrawing st).
Qed.

(** What an event does to the draft: it keeps it, clears it, opens one at
    the pointer, or adds a point to it. *)
Lemma step_current (st : State) (ev : Event) :
  current (step st ev) = current st
  ∨ current (step st ev) = None
  ∨ (∃ now random p,
        current (step st ev) = Some (draft_at now random (pageId st) p))
  ∨ (∃ prev pts p,
        current st = Some prev ∧ Shape.points prev = Some pts
        ∧ current (step st ev) = Some (Shape.with_points prev (pts ++ [p]))).
Proof.
  destruct ev as [now random answer e|e|e|now r_id r_x r_y type|t|id];
    cbn [step]; try by left.
  - unfold handleMouseDown. destruct (canvasRef st) as [canvas|]; [|by left].
    destruct (String.eqb (tool st) "pencil").
    + right; right; left. by exists now, random, (getPointerPos canvas e).
    + repeat case_match; by left.
  - unfold handleMouseMove. destruct (canvasRef st) as [canvas|]; [|by left].
    destruct (drafting st) as [prev|] eqn:Hdraft.
    + destruct (Shape.points prev) as [pts|] eqn:Hpts; [|by left].
      right; right; right. exists prev, pts, (getPointerPos canvas e).
      split_and!; [by apply drafting_current|done|done].
    + repeat case_match; by left.
  - unfold handleMouseUp. repeat case_match; (by left) || (by right; left).
Qed.

Lemma created_on_page (st : State) (ev : Event) (s : Shape.t) :
  on_page st → created st ev s → Shape.pageId s = pageId st.
Proof.
  intros [_ Hdraft] [now r_id r_x r_y type|now random e canvas text _ _ _|e s' Hs'];
    try reflexivity.
  by apply Hdraft, drafting_current.
Qed.

Lemma step_on_page (st : State) (ev : Event) : on_page st → on_page (step st ev).
Proof.
  intros Hpage. pose proof Hpage as [Hlist Hdraft].
  unfold on_page. rewrite step_pageId. split.
  - destruct (step_change st ev) as [-> _|s Hs -> _|e canvas _ _ _ -> _]; [done| |].
    + apply Forall_app. split; [done|].
      apply Forall_singleton. by apply (created_on_page st ev).
    + apply Forall_fmap. eapply Forall_impl; [exact Hlist|].
      intros s Hs. cbn.
      by destruct (drag_to_same_but_origin (dragState st) (getPointerPos canvas e) s)
        as (_ & _ & -> & _).
  - intros c Hc.
    destruct (step_current st ev)
      as [Hkeep|[Hnone|[(now & random & p & Hnew)|(prev & pts & p & Hprev & _ & Hnew)]]].
    + apply Hdraft. congruence.
    + congruence.
    + rewrite Hnew in Hc. by injection Hc as <-.
    + rewrite Hnew in Hc. injection Hc as <-.
      change (Shape.pageId prev = pageId st). by apply Hdraft.
Qed.

End Pages.

(** X3.  If every shape of the list and the draft carry the active page id,
    they still do after any sequence of events, and the active page is the
    same: every shape that the component creates belongs to the active page,
    and no event moves a shape to another page. *)
Theorem shapes_stay_on_page (evs : list Whiteboard.Event) (st : State) :
  on_page st →
  on_page (Whiteboard.run evs st) ∧ pageId (Whiteboard.run evs st) = pageId st.
Proof.
  intros Hpage.
  apply (run_invariant (λ st', on_page st' ∧ pageId st' = pageId st)); [|done].
  intros st' ev [Hpage' Hid]. split; [by apply step_on_page|].
  by rewrite step_pageId.
Qed.

(** X3 on a session that adds a circle, types a text and draws a stroke. *)
Lemma shapes_stay_on_page_witness :
  let evs := [ Whiteboard.AddShape 1 0.5 0.25 0.75 "circle";
               Whiteboard.SetTool "text";
               Whiteboard.MouseDown 2 0.5 (Some "hello"%string) (Whiteboard.mkMouse 10 10);
               Whiteboard.SetTool "pencil";
               Whiteboard.MouseDown 3 0.5 None (Whiteboard.mkMouse 0 0);
               Whiteboard.MouseMove (Whiteboard.mkMouse 5 5);
               Whiteboard.MouseUp (Whiteboard.mkMouse 5 5) ] in
  on_page (Whiteboard.run evs Sample.fresh)
  ∧ pageId (Whiteboard.run evs Sample.fresh) = pageId Sample.fresh.
Proof.
  intros evs. apply (shapes_stay_on_page evs Sample.fresh).
  split; [constructor|done].
Defined.

(** ** What the rendered component keeps *)

Section FromUi.

Import Json Whiteboard.

Lemma run_invariant_ui (I : State → Prop) :
  (∀ st ev, from_ui st ev → I st → I (step st ev)) →
  ∀ evs st, all_from_ui st evs → I st → I (run evs st).
Proof.
  intros Hstep evs. induction evs as [|ev evs IH]; intros st Hui HI; [done|].
  destruct Hui as [Hev Hevs]. rewrite run_cons. by apply IH, Hstep.
Qed.

(** The toolbar adds lines, circles and arrows, and nothing else. *)
Lemma toolbar_adds (st : State) (now : Z) (r_id r_x r_y : float) (type : string) :
  from_ui st (AddShape now r_id r_x r_y type) →
  type = "line"%string ∨ type = "circle"%string ∨ type = "arrow"%string.
Proof.
  intros (b & Hb & Hclick). unfold Toolbar.buttons in Hb.
  repeat (apply elem_of_cons in Hb as [->|Hb]); try (by apply elem_of_nil in Hb);
    cbn in Hclick; try discriminate; injection Hclick as <-; auto.
Qed.

(** The toolbar selects one of three tools. *)
Lemma toolbar_tools (st : State) (t : string) :
  from_ui st (SetTool t) →
  t = "select"%string ∨ t = "pencil"%string ∨ t = "text"%string.
Proof.
  intros (b & Hb & Hclick). unfold Toolbar.buttons in Hb.
  repeat (apply elem_of_cons in Hb as [->|Hb]); try (by apply elem_of_nil in Hb);
    cbn in Hclick; try discriminate; injection Hclick as <-; auto.
Qed.

Lemma complete_same_but_origin (s s' : Shape.t) :
  same_but_origin s s' → complete s → complete s'.
Proof.
  unfold same_but_origin, complete.
  intros (_ & -> & _ & _ & _ & -> & -> & -> & -> & -> & _). done.
Qed.

Lemma created_complete (st : State) (ev : Event) (s : Shape.t) :
  from_ui st ev → draft_ok st → created st ev s → complete s.
Proof.
  intros Hui Hdraft Hcreated.
  destruct Hcreated as [now r_id r_x r_y type|now random e canvas text _ _ Htext|e s' Hs'].
  - destruct (toolbar_adds st now r_id r_x r_y type Hui) as [->|[->| ->]].
    + right; left. cbn. split_and!; [by left|done|done].
    + left. by cbn.
    + right; left. cbn. split_and!; [by right|done|done].
  - right; right; right. cbn. split; [done|]. by exists text.
  - destruct (Hdraft s' (drafting_current st s' Hs')) as (Htype & _ & Hpts).
    right; right; left. done.
Qed.

Lemma step_draft_ok (st : State) (ev : Event) : draft_ok st → draft_ok (step st ev).
Proof.
  intros Hdraft c Hc. rewrite step_pageId.
  destruct (step_current st ev)
    as [Hkeep|[Hnone|[(now & random & p & Hnew)|(prev & pts & p & Hprev & Hpts & Hnew)]]].
  - apply Hdraft. congruence.
  - congruence.
  - rewrite Hnew in Hc. injection Hc as <-. split_and!; [done|done|].
    by eexists _, _.
  - rewrite Hnew in Hc. injection Hc as <-.
    destruct (Hdraft prev Hprev) as (Htype & Hpage & _).
    split_and!; [done|done|]. cbn.
    destruct pts as [|p0 pts]; by eexists _, _.
Qed.

Lemma step_complete (st : State) (ev : Event) :
  from_ui st ev →
  Forall complete (shapes st) ∧ draft_ok st →
  Forall complete (shapes (step st ev)) ∧ draft_ok (step st ev).
Proof.
  intros Hui [Hlist Hdraft]. split; [|by apply step_draft_ok].
  destruct (step_change st ev) as [-> _|s Hs -> _|e canvas _ _ _ -> _]; [done| |].
  - apply Forall_app. split; [done|].
    apply Forall_singleton. by apply (created_complete st ev).
  - apply Forall_fmap. eapply Forall_impl; [exact Hlist|].
    intros s Hs. cbn.
    apply (complete_same_but_origin s); [|done].
    apply drag_to_same_but_origin.
Qed.

End FromUi.

(** Shows that an event is a click on the [n]th button of the toolbar, or
    on the [n]th entry of the shapes panel. *)
Ltac by_ui :=
  first [ eexists; split; [apply list_elem_of_lookup; by exists 0|reflexivity]
        | eexists; split; [apply list_elem_of_lookup; by exists 1|reflexivity]
        | eexists; split; [apply list_elem_of_lookup; by exists 2|reflexivity]
        | eexists; split; [apply list_elem_of_lookup; by exists 3|reflexivity]
        | eexists; split; [apply list_elem_of_lookup; by exists 4|reflexivity]
        | eexists; split; [apply list_elem_of_lookup; by exists 5|reflexivity]
        | apply list_elem_of_lookup; by exists 0
        | apply list_elem_of_lookup; by exists 1
        | apply list_elem_of_lookup; by exists 2 ].

(** X4.  Starting from a list of complete shapes, whatever is clicked on the
    toolbar and the shapes panel and done with the mouse on the canvas, every
    shape of the list is complete: a circle with radius 30, a line or arrow
    with its second endpoint, a pencil stroke with at least one point, or a
    text with a non-empty content.  The rendered component creates no
    rectangle and no empty stroke. *)
Theorem ui_shapes_complete (evs : list Whiteboard.Event) (st : State) :
  all_from_ui st evs →
  Forall complete (shapes st) →
  draft_ok st →
  Forall complete (shapes (Whiteboard.run evs st)).
Proof.
  intros Hui Hlist Hdraft.
  apply (run_invariant_ui (λ st', Forall complete (shapes st') ∧ draft_ok st')
           step_complete evs st Hui).
  by split.
Qed.

(** X4 on a session that uses every button and draws a stroke. *)
Lemma ui_shapes_complete_witness :
  let evs := [ Whiteboard.AddShape 1 0.5 0.25 0.75 "circle";
               Whiteboard.AddShape 1 0.25 0.25 0.75 "line";
               Whiteboard.AddShape 1 0.125 0.25 0.75 "arrow";
               Whiteboard.SetTool "text";
               Whiteboard.MouseDown 2 0.5 (Some "hello"%string) (Whiteboard.mkMouse 10 10);
               Whiteboard.SetTool "pencil";
               Whiteboard.MouseDown 3 0.5 None (Whiteboard.mkMouse 0 0);
               Whiteboard.MouseMove (Whiteboard.mkMouse 5 5);
               Whiteboard.MouseUp (Whiteboard.mkMouse 5 5);
               Whiteboard.SetTool "select";
               Whiteboard.ClickListItem "shape_1_500" ] in
  Forall complete (shapes (Whiteboard.run evs Sample.fresh)).
Proof.
  intros evs. apply (ui_shapes_complete evs Sample.fresh).
  - repeat (split; [first [exact I|by_ui]|]). exact I.
  - constructor.
  - done.
Defined.

Section References.

Import Json Whiteboard.

Lemma findShapeAt_elem (l : list Shape.t) (p : Point.t) (s : Shape.t) :
  Geometry.findShapeAt l p = Some s → s ∈ l ∧ Geometry.hit p s = true.
Proof.
  unfold Geometry.findShapeAt. intros Hfound.
  pose proof (findShapeAt_from_spec p l (length l)) as Hspec.
  rewrite Hfound in Hspec. destruct Hspec as (i & _ & Hi & Hhit & _).
  split; [|done]. apply list_elem_of_lookup. eauto.
Qed.

Lemma ids_kept (l k : list Shape.t) :
  Forall2 same_but_origin l k → map Shape.id k = map Shape.id l.
Proof.
  induction 1 as [|s s' l k Hs _ IH]; [done|].
  cbn. rewrite IH. by destruct Hs as (-> & _).
Qed.

(** The ids of the list are kept, in their order, by every event. *)
Lemma step_ids (st : State) (ev : Event) :
  ∃ added, map Shape.id (shapes (step st ev)) = map Shape.id (shapes st) ++ added.
Proof.
  destruct (step_frame st ev) as (k & a & -> & Hk).
  exists (map Shape.id a). by rewrite map_app, (ids_kept _ _ Hk).
Qed.

Lemma step_ids_elem (st : State) (ev : Event) (i : string) :
  i ∈ map Shape.id (shapes st) → i ∈ map Shape.id (shapes (step st ev)).
Proof.
  intros Hi. destruct (step_ids st ev) as [added ->].
  apply elem_of_app. by left.
Qed.

(** What an event does to the selection. *)
Lemma step_selectedId (st : State) (ev : Event) :
  from_ui st ev →
  selectedId (step st ev) = selectedId st
  ∨ selectedId (step st ev) = None
  ∨ ∃ i, i ∈ map Shape.id (shapes st) ∧ selectedId (step st ev) = Some i.
Proof.
  intros Hui.
  destruct ev as [now random answer e|e|e|now r_id r_x r_y type|t|id];
    cbn [step]; try by left.
  - unfold handleMouseDown. destruct (canvasRef st) as [canvas|]; [|by left].
    destruct (String.eqb (tool st) "pencil"); [by left|].
    destruct (String.eqb (tool st) "text"); [repeat case_match; by left|].
    destruct (Geometry.findShapeAt _ _) as [hit|] eqn:Hfound; [|by right; left].
    right; right. exists (Shape.id hit). split; [|done].
    apply findShapeAt_elem in Hfound as [Hin _].
    apply list_elem_of_fmap. by exists hit.
  - unfold handleMouseMove. repeat case_match; by left.
  - unfold handleMouseUp. repeat case_match; by left.
  - right; right. by exists id.
Qed.

(** What an event does to the drag session. *)
Lemma step_dragState (st : State) (ev : Event) :
  dragState (step st ev) = dragState st
  ∨ dragging (dragState (step st ev)) = false
  ∨ ∃ i, i ∈ map Shape.id (shapes st)
         ∧ shapeId (dragState (step st ev)) = Some i.
Proof.
  destruct ev as [now random answer e|e|e|now r_id r_x r_y type|t|id];
    cbn [step]; try by left.
  - unfold handleMouseDown. destruct (canvasRef st) as [canvas|]; [|by left].
    destruct (String.eqb (tool st) "pencil"); [by left|].
    destruct (String.eqb (tool st) "text"); [repeat case_match; by left|].
    destruct (Geometry.findShapeAt _ _) as [hit|] eqn:Hfound; [|by left].
    right; right. exists (Shape.id hit). split; [|done].
    apply findShapeAt_elem in Hfound as [Hin _].
    apply list_elem_of_fmap. by exists hit.
  - unfold handleMouseMove. repeat case_match; by left.
  - unfold handleMouseUp. repeat case_match; (by left) || (by right; left).
Qed.

Lemma step_references (st : State) (ev : Event) :
  from_ui st ev → references_exist st → references_exist (step st ev).
Proof.
  intros Hui [Hsel Hdrag]. split.
  - intros i Hi.
    destruct (step_selectedId st ev Hui) as [Hkeep|[Hnone|(j & Hj & Hset)]].
    + apply step_ids_elem, Hsel. congruence.
    + congruence.
    + apply step_ids_elem. congruence.
  - intros Hdragging.
    destruct (step_dragState st ev) as [Hkeep|[Hoff|(j & Hj & Hset)]].
    + rewrite Hkeep in *. destruct (Hdrag Hdragging) as (i & Hi & Hin).
      exists i. split; [done|]. by apply step_ids_elem.
    + congruence.
    + exists j. split; [done|]. by apply step_ids_elem.
Qed.

End References.

(** X5.  If the selection and the drag session name shapes of the list, they
    still do whatever is then clicked on the toolbar and the shapes panel and
    done with the mouse on the canvas: the rendered component never leaves a
    selected id or a dragged id that no shape carries. *)
Theorem ui_references_exist (evs : list Whiteboard.Event) (st : State) :
  all_from_ui st evs →
  references_exist st →
  references_exist (Whiteboard.run evs st).
Proof. apply (run_invariant_ui references_exist step_references). Qed.

(** X5 on a session that adds two shapes, selects one from the panel, then
    grabs and drags the other. *)
Lemma ui_references_exist_witness :
  let evs := [ Whiteboard.AddShape 1 0.5 0 0 "circle";
               Whiteboard.AddShape 2 0.5 0.5 0.5 "line";
               Whiteboard.ClickListItem "shape_2_500";
               Whiteboard.MouseDown 3 0 None (Whiteboard.mkMouse 110 90);
               Whiteboard.MouseMove (Whiteboard.mkMouse 150 150) ] in
  references_exist (Whiteboard.run evs Sample.fresh).
Proof.
  intros evs. apply (ui_references_exist evs Sample.fresh).
  - repeat (split; [first [exact I|by_ui]|]). exact I.
  - split; [done|]. cbn. discriminate.
Defined.

Section Requests.

Import Json Whiteboard.

Lemma find_by_id_found (i : string) (l : list Shape.t) (s : Shape.t) :
  find_by_id (Some i) l = Some s → s ∈ l ∧ Shape.id s = i.
Proof.
  unfold find_by_id. intros [Hin Hid]%find_some. split; [by apply list_elem_of_In|].
  cbn in Hid. rewrite negb_involutive in Hid. by apply String.eqb_eq.
Qed.

Lemma run_ids_elem (evs : list Event) (st : State) (i : string) :
  i ∈ map Shape.id (shapes st) → i ∈ map Shape.id (shapes (run evs st)).
Proof.
  revert st. induction evs as [|ev evs IH]; intros st Hi; [done|].
  rewrite run_cons. by apply IH, step_ids_elem.
Qed.

(** The requests that an event sends. *)
Lemma step_requests (st : State) (ev : Event) :
  ∃ sent, requests (step st ev) = requests st ++ sent
          ∧ ∀ r, r ∈ sent →
              ∃ s, writes_shape r s
                   ∧ Shape.id s ∈ map Shape.id (shapes (step st ev)).
Proof.
  assert (∀ st', requests st' = requests st →
            ∃ sent, requests st' = requests st ++ sent
                    ∧ ∀ r, r ∈ sent →
                        ∃ s, writes_shape r s
                             ∧ Shape.id s ∈ map Shape.id (shapes st')) as Hnone.
  { intros st' ->. exists []. rewrite app_nil_r. split; [done|].
    by intros r Hr%elem_of_nil. }
  assert (∀ s l, Shape.id s ∈ map Shape.id (l ++ [s])) as Hlast.
  { intros s l. rewrite map_app. apply elem_of_app. right. by apply list_elem_of_singleton. }
  destruct ev as [now random answer e|e|e|now r_id r_x r_y type|t|id];
    cbn [step]; try by apply Hnone.
  - unfold handleMouseDown. destruct (canvasRef st) as [canvas|]; [|by apply Hnone].
    destruct (String.eqb (tool st) "pencil"); [by apply Hnone|].
    destruct (String.eqb (tool st) "text");
      [|destruct (Geometry.findShapeAt _ _); by apply Hnone].
    destruct answer as [text|]; [|by apply Hnone].
    destruct (String.eqb text ""); [by apply Hnone|].
    eexists [_]. split; [reflexivity|].
    intros r ->%list_elem_of_singleton. eexists. split; [by left|apply Hlast].
  - unfold handleMouseMove. repeat case_match; by apply Hnone.
  - unfold handleMouseUp. destruct (canvasRef st) as [canvas|]; [|by apply Hnone].
    destruct (drafting st) as [final|].
    + eexists [_]. split; [reflexivity|].
      intros r ->%list_elem_of_singleton. eexists. split; [by left|apply Hlast].
    + destruct (dragging (dragState st)); [|by apply Hnone].
      destruct (shapeId (dragState st)) as [i|];
        [|destruct (find_by_id _ _); by apply Hnone].
      destruct (find_by_id (Some i) (shapes st)) as [s|] eqn:Hfound; [|by apply Hnone].
      apply find_by_id_found in Hfound as [Hin <-].
      eexists [_]. split; [reflexivity|].
      intros r ->%list_elem_of_singleton. exists s. split; [by right|].
      apply list_elem_of_fmap. by exists s.
  - eexists [_]. split; [reflexivity|].
    intros r ->%list_elem_of_singleton. eexists. split; [by left|apply Hlast].
Qed.

End Requests.

(** X6.  The requests sent during any sequence of events are added after
    those sent before, and each is the POST of a shape or the PUT of a shape
    under its id, for a shape whose id is in the list at the end: the
    handlers send no other kind of request, and none for a shape that the
    list does not hold. *)
Theorem requests_write_listed_shapes (evs : list Whiteboard.Event) (st : State) :
  ∃ sent,
    requests (Whiteboard.run evs st) = requests st ++ sent
    ∧ ∀ r, r ∈ sent →
        ∃ s, writes_shape r s
             ∧ Shape.id s ∈ map Shape.id (shapes (Whiteboard.run evs st)).
Proof.
  revert st. induction evs as [|ev evs IH]; intros st.
  - exists []. rewrite app_nil_r. split; [done|]. by intros r Hr%elem_of_nil.
  - rewrite run_cons.
    destruct (step_requests st ev) as (sent1 & Hsent1 & Hwrites1).
    destruct (IH (Whiteboard.step st ev)) as (sent2 & Hsent2 & Hwrites2).
    exists (sent1 ++ sent2). split; [by rewrite Hsent2, Hsent1, app_assoc|].
    intros r [Hr|Hr]%elem_of_app; [|by apply Hwrites2].
    destruct (Hwrites1 r Hr) as (s & Hs & Hid).
    exists s. split; [done|]. by apply run_ids_elem.
Qed.

(** ** The text tool and the select tool *)

Section Tools.

Import Json Whiteboard.

(** The shape that the text tool makes of an answer. *)
Lemma handleMouseDown_text (now : Z) (random : float) (text : string)
    (e : MouseEvent) (st : State) (canvas : Canvas) :
  canvasRef st = Some canvas →
  tool st = "text"%string →
  text ≠ ""%string →
  let p := getPointerPos canvas e in
  let s := Shape.mk (uid "shape" now random) "text" (Point.x p) (Point.y p)
             (pageId st) None None None None None None (Some text) None None None in
  handleMouseDown now random (Some text) e st
  = fetch (POST_shape s) (commit (λ prev, prev ++ [s]) st).
Proof.
  intros Hcanvas Htool Htext. unfold handleMouseDown. rewrite Hcanvas, Htool.
  apply String.eqb_neq in Htext. by rewrite Htext.
Qed.

Lemma findShapeAt_none (l : list Shape.t) (p : Point.t) :
  (∀ s, s ∈ l → Geometry.hit p s = false) → Geometry.findShapeAt l p = None.
Proof.
  intros Hnone. destruct (Geometry.findShapeAt l p) as [s|] eqn:Hfound; [|done].
  apply findShapeAt_elem in Hfound as [Hin Hhit].
  rewrite (Hnone s Hin) in Hhit. discriminate.
Qed.

Lemma findShapeAt_top (l : list Shape.t) (p : Point.t) (i : nat) (s : Shape.t) :
  l !! i = Some s →
  Geometry.hit p s = true →
  (∀ j s', i < j → l !! j = Some s' → Geometry.hit p s' = false) →
  Geometry.findShapeAt l p = Some s.
Proof.
  intros Hs Hhit Habove. unfold Geometry.findShapeAt.
  pose proof (findShapeAt_from_spec p l (length l)) as Hspec.
  apply lookup_lt_Some in Hs as Hlen.
  destruct (Geometry.findShapeAt_from l (length l) p) as [r|].
  - destruct Hspec as (k & Hk & Hr & Hhr & Hkabove).
    destruct (Nat.lt_trichotomy i k) as [Hlt|[->|Hgt]].
    + rewrite (Habove k r Hlt Hr) in Hhr. discriminate.
    + congruence.
    + rewrite (Hkabove i s) in Hhit; [discriminate|lia|done].
  - rewrite (Hspec i s Hlen Hs) in Hhit. discriminate.
Qed.

Lemma handleMouseDown_select (now : Z) (random : float) (answer : option string)
    (e : MouseEvent) (st : State) (canvas : Canvas) :
  canvasRef st = Some canvas →
  tool st ≠ "pencil"%string →
  tool st ≠ "text"%string →
  handleMouseDown now random answer e st
  = match Geometry.findShapeAt (shapes st) (getPointerPos canvas e) with
    | Some hit =>
        setDragState
          (mkDrag true (Point.x (getPointerPos canvas e) - Shape.x hit)%float
             (Point.y (getPointerPos canvas e) - Shape.y hit)%float
             (Some (Shape.id hit)))
          (setSelectedId (Some (Shape.id hit)) st)
    | None => setSelectedId None st
    end.
Proof.
  intros Hcanvas Hpencil%String.eqb_neq Htext%String.eqb_neq.
  unfold handleMouseDown. by rewrite Hcanvas, Hpencil, Htext.
Qed.

End Tools.

(** X7.  With the text tool, a pointer-down whose prompt is cancelled or
    answered with the empty string changes nothing.  With any other answer it
    appends one text shape at the pointer, with that content and the active
    page id, rewrites the cache with the new list and sends the POST of the
    shape; the draft, the selection and the drag session stay as they are.
    Whatever its content, the new text is hit exactly within the 60 by 40 box
    at its origin. *)
Theorem text_tool_adds_or_ignores
    (now : Z) (random : float) (answer : option string)
    (e : Whiteboard.MouseEvent) (st : State) (canvas : Canvas) :
  canvasRef st = Some canvas →
  tool st = "text"%string →
  let p := Whiteboard.getPointerPos canvas e in
  let st' := Whiteboard.handleMouseDown now random answer e st in
  (answer = None ∨ answer = Some ""%string → st' = st)
  ∧ ∀ text, answer = Some text → text ≠ ""%string →
      ∃ s, shapes st' = shapes st ++ [s]
           ∧ Shape.type s = "text"%string
           ∧ Shape.content s = Some text
           ∧ Shape.x s = Point.x p ∧ Shape.y s = Point.y p
           ∧ Shape.pageId s = pageId st
           ∧ in_sync st'
           ∧ requests st' = requests st ++ [Whiteboard.POST_shape s]
           ∧ current st' = current st
           ∧ selectedId st' = selectedId st
           ∧ dragState st' = dragState st
           ∧ ∀ q, Geometry.hit q s
                  = Containment.inside q
                      (Containment.mkrect (Point.mk (Shape.x s) (Shape.y s))
                         (Point.mk (Shape.x s + 60)%float (Shape.y s + 40)%float)).
Proof.
  intros Hcanvas Htool p st'. split.
  - subst st'. unfold Whiteboard.handleMouseDown. rewrite Hcanvas, Htool.
    by intros [-> | ->].
  - intros text -> Htext. subst st'.
    rewrite (handleMouseDown_text now random text e st canvas Hcanvas Htool Htext).
    eexists. split_and!; try reflexivity. apply lookup_insert_eq.
Qed.

(** X7 on a fresh board: the answer "hello" at (10,10). *)
Lemma text_tool_adds_or_ignores_witness :
  let st := setTool "text" Sample.fresh in
  let st' := Whiteboard.handleMouseDown 2 0.5 (Some "hello"%string)
               (Whiteboard.mkMouse 10 10) st in
  ∃ s, shapes st' = [] ++ [s]
       ∧ Shape.type s = "text"%string
       ∧ Shape.content s = Some "hello"%string
       ∧ Shape.x s = (10 - 0)%float ∧ Shape.y s = (10 - 0)%float
       ∧ Shape.pageId s = "page_1"%string
       ∧ in_sync st'
       ∧ requests st' = [] ++ [Whiteboard.POST_shape s]
       ∧ current st' = None
       ∧ selectedId st' = None
       ∧ dragState st' = dragState st
       ∧ ∀ q, Geometry.hit q s
              = Containment.inside q
                  (Containment.mkrect (Point.mk (Shape.x s) (Shape.y s))
                     (Point.mk (Shape.x s + 60)%float (Shape.y s + 40)%float)).
Proof.
  intros st st'.
  apply (proj2 (text_tool_adds_or_ignores 2 0.5 (Some "hello"%string)
                  (Whiteboard.mkMouse 10 10) st Sample.canvas eq_refl eq_refl)
           "hello"%string eq_refl).
  discriminate.
Defined.

(** X8.  With the select tool a pointer-down changes neither the list, the
    cache, the requests sent nor the draft.  Where no shape contains the
    pointer it clears the selection and leaves the drag session as it is;
    where shapes contain it, it selects the one of highest index and opens a
    drag session on it whose offset is the pointer minus the origin of that
    shape. *)
Theorem select_tool_picks_topmost
    (now : Z) (random : float) (answer : option string)
    (e : Whiteboard.MouseEvent) (st : State) (canvas : Canvas) :
  canvasRef st = Some canvas →
  tool st ≠ "pencil"%string →
  tool st ≠ "text"%string →
  let p := Whiteboard.getPointerPos canvas e in
  let st' := Whiteboard.handleMouseDown now random answer e st in
  shapes st' = shapes st
  ∧ localStorage st' = localStorage st
  ∧ requests st' = requests st
  ∧ current st' = current st
  ∧ ((∀ s, s ∈ shapes st → Geometry.hit p s = false) →
     selectedId st' = None ∧ dragState st' = dragState st)
  ∧ ∀ i s, shapes st !! i = Some s →
      Geometry.hit p s = true →
      (∀ j s', i < j → shapes st !! j = Some s' → Geometry.hit p s' = false) →
      selectedId st' = Some (Shape.id s)
      ∧ dragState st'
        = mkDrag true (Point.x p - Shape.x s)%float (Point.y p - Shape.y s)%float
            (Some (Shape.id s)).
Proof.
  intros Hcanvas Hpencil Htext p st'. subst st'.
  rewrite (handleMouseDown_select now random answer e st canvas Hcanvas Hpencil Htext).
  fold p. split_and!.
  - by destruct (Geometry.findShapeAt _ _).
  - by destruct (Geometry.findShapeAt _ _).
  - by destruct (Geometry.findShapeAt _ _).
  - by destruct (Geometry.findShapeAt _ _).
  - intros Hnone. by rewrite (findShapeAt_none _ _ Hnone).
  - intros i s Hs Hhit Habove. by rewrite (findShapeAt_top _ _ i s Hs Hhit Habove).
Qed.

(** X8 on two overlapping shapes: the pointer at (110,105) is inside both,
    and the one added last is selected. *)
Lemma select_tool_picks_topmost_witness :
  let below := Sample.shape "below" "rectangle" 100 100 in
  let above := Sample.shape "above" "rectangle" 90 90 in
  let st := setShapes [below; above] Sample.fresh in
  let st' := Whiteboard.handleMouseDown 0 0 None (Whiteboard.mkMouse 110 105) st in
  selectedId st' = Some "above"%string
  ∧ dragState st' = mkDrag true (110 - 0 - 90)%float (105 - 0 - 90)%float
                      (Some "above"%string).
Proof.
  intros below above st st'.
  assert (tool st ≠ "pencil"%string) as Hpencil by discriminate.
  assert (tool st ≠ "text"%string) as Htext by discriminate.
  destruct (select_tool_picks_topmost 0 0 None (Whiteboard.mkMouse 110 105) st
              Sample.canvas eq_refl Hpencil Htext) as (_ & _ & _ & _ & _ & Hhit).
  apply (Hhit 1 above); [reflexivity|reflexivity|].
  intros [|[|j]] s' Hj Hs'; [lia|lia|discriminate].
Defined.

Section Idle.

Import Json Whiteboard.

Lemma handleMouseMove_idle (e : MouseEvent) (st : State) :
  drafting st = None → dragging (dragState st) = false → handleMouseMove e st = st.
Proof.
  intros Hdraft Hdrag. unfold handleMouseMove. rewrite Hdraft, Hdrag.
  by destruct (canvasRef st).
Qed.

Lemma handleMouseUp_idle (e : MouseEvent) (st : State) :
  drafting st = None → dragging (dragState st) = false → handleMouseUp e st = st.
Proof.
  intros Hdraft Hdrag. unfold handleMouseUp. rewrite Hdraft, Hdrag.
  by destruct (canvasRef st).
Qed.

End Idle.

(** X9.  A pointer-move or pointer-up with neither a draft nor a drag
    session active changes nothing.  A pointer-up ends one interaction: the
    draft when there is one, and the drag session otherwise.  After the
    pointer-up of a drag without draft, and after the pointer-up that commits
    a draft while no drag session is open, the state stays as that pointer-up
    left it whatever moves and releases follow, until the next pointer-down.
    The pointer-up that commits a draft while a drag session is open returns
    before it reaches the session: the session stays open, and the next move
    repositions the shapes it names. *)
Theorem release_ends_one_interaction :
  (∀ (e : Whiteboard.MouseEvent) (st : State),
      Whiteboard.drafting st = None → dragging (dragState st) = false →
      Whiteboard.handleMouseMove e st = st ∧ Whiteboard.handleMouseUp e st = st)
  ∧ (∀ (e : Whiteboard.MouseEvent) (st : State) (canvas : Canvas)
       (later : list (bool * Whiteboard.MouseEvent)),
      canvasRef st = Some canvas →
      dragging_now st ∨ (is_Some (Whiteboard.drafting st)
                         ∧ dragging (dragState st) = false) →
      let st' := Whiteboard.handleMouseUp e st in
      Whiteboard.drafting st' = None
      ∧ dragging (dragState st') = false
      ∧ Whiteboard.run
          (map (λ '(up, e'), if up : bool then Whiteboard.MouseUp e'
                             else Whiteboard.MouseMove e') later) st'
        = st')
  ∧ (∀ (e e' : Whiteboard.MouseEvent) (st : State) (canvas : Canvas)
       (final : Shape.t),
      canvasRef st = Some canvas →
      Whiteboard.drafting st = Some final →
      dragging (dragState st) = true →
      let st' := Whiteboard.handleMouseUp e st in
      shapes st' = shapes st ++ [final]
      ∧ Whiteboard.drafting st' = None
      ∧ dragState st' = dragState st
      ∧ shapes (Whiteboard.handleMouseMove e' st')
        = map (Whiteboard.drag_to (dragState st) (Whiteboard.getPointerPos canvas e'))
            (shapes st ++ [final])).
Proof.
  split_and!.
  - intros e st Hdraft Hdrag.
    split; [by apply handleMouseMove_idle|by apply handleMouseUp_idle].
  - intros e st canvas later Hcanvas Hactive st'.
    assert (Whiteboard.drafting st' = None ∧ dragging (dragState st') = false)
      as [Hdraft Hdrag].
    { subst st'. destruct Hactive as [Hnow|[[final Hfinal] Hdrag]].
      - rewrite (handleMouseUp_dragging e st canvas Hcanvas Hnow).
        destruct Hnow as [Hdraft _]. split; [|done].
        unfold Whiteboard.drafting in *.
        by destruct (Whiteboard.find_by_id _ _), (shapeId (dragState st)).
      - rewrite (handleMouseUp_drafting canvas e st final Hcanvas Hfinal).
        split; [|done]. unfold Whiteboard.drafting. cbn.
        by rewrite andb_false_r. }
    split_and!; [done|done|].
    induction later as [|[up e'] later IH]; [done|].
    cbn [map]. rewrite run_cons. destruct up; cbn [Whiteboard.step].
    + by rewrite handleMouseUp_idle.
    + by rewrite handleMouseMove_idle.
  - intros e e' st canvas final Hcanvas Hfinal Hdrag st'. subst st'.
    rewrite (handleMouseUp_drafting canvas e st final Hcanvas Hfinal).
    assert (Whiteboard.drafting
              (setIsDrawing false
                 (setCurrent None
                    (fetch (Whiteboard.POST_shape final)
                       (Whiteboard.commit (λ prev, prev ++ [final]) st)))) = None)
      as Hended.
    { unfold Whiteboard.drafting. cbn. by rewrite andb_false_r. }
    split_and!; [done|done|done|].
    rewrite (handleMouseMove_dragging e' _ canvas); [done|done|by split].
Qed.

(** X9 on a stroke drawn while a drag session is open: the rectangle "a" is
    grabbed, the pencil is chosen on the toolbar and a stroke is begun.  The
    release commits the stroke and leaves the session open, and the move that
    follows carries "a" along. *)
Lemma release_ends_one_interaction_witness :
  let st := Whiteboard.run
              [Whiteboard.MouseDown 0 0 None (Whiteboard.mkMouse 110 105);
               Whiteboard.SetTool "pencil";
               Whiteboard.MouseDown 7 0.5 None (Whiteboard.mkMouse 50 50)]
              (setShapes [Sample.shape "a" "rectangle" 100 100] Sample.fresh) in
  let stroke := draft_at 7 0.5 "page_1" (Point.mk 50 50) in
  let st' := Whiteboard.handleMouseUp (Whiteboard.mkMouse 60 60) st in
  shapes st' = shapes st ++ [stroke]
  ∧ Whiteboard.drafting st' = None
  ∧ dragState st' = dragState st
  ∧ shapes (Whiteboard.handleMouseMove (Whiteboard.mkMouse 300 300) st')
    = [Sample.shape "a" "rectangle" 290 295; stroke].
Proof.
  intros st stroke st'.
  apply (proj2 (proj2 release_ends_one_interaction) (Whiteboard.mkMouse 60 60)
           (Whiteboard.mkMouse 300 300) st Sample.canvas stroke); reflexivity.
Defined.

(** ** The renderer *)

Section Drawing.

Import Renderer.

Variable Math_atan2 : float → float → float.
Variables Math_cos Math_sin : float → float.

Lemma stack_depth_app (n : nat) (cs cs' : list call) :
  stack_depth n (cs ++ cs') = stack_depth n cs ≫= λ m, stack_depth m cs'.
Proof.
  revert n. induction cs as [|c cs IH]; intros n; [done|].
  destruct c; cbn [app stack_depth]; try apply IH.
  destruct n; [done|apply IH].
Qed.

Lemma stack_depth_lines (n : nat) (f : Point.t → call) (pts : list Point.t) :
  (∀ p, ∃ x y, f p = lineTo x y) →
  stack_depth n (map f pts) = Some n.
Proof.
  intros Hf. induction pts as [|p pts IH]; [done|].
  cbn [map]. destruct (Hf p) as (x & y & ->). exact IH.
Qed.

(** The calls that draw a variant neither save nor restore. *)
Lemma stack_depth_variant (n : nat) (s : Shape.t) :
  stack_depth n (draw_variant Math_atan2 Math_cos Math_sin s) = Some n.
Proof.
  unfold draw_variant.
  destruct (String.eqb (Shape.type s) "circle"); [reflexivity|].
  destruct (String.eqb (Shape.type s) "line"); [reflexivity|].
  destruct (String.eqb (Shape.type s) "arrow"); [reflexivity|].
  destruct (String.eqb (Shape.type s) "pencil");
    [|by destruct (String.eqb (Shape.type s) "text")].
  cbn [app stack_depth]. rewrite stack_depth_app.
  assert (∀ pts, stack_depth n
                   (map (λ p, lineTo (Point.x p - Shape.x s)%float
                                     (Point.y p - Shape.y s)%float) pts) = Some n)
    as Hlines.
  { intros pts. apply stack_depth_lines. intros q. by eexists _, _. }
  destruct (Shape.points s) as [[|p0 rest]|]; cbn [stack_depth]; try reflexivity.
  by rewrite Hlines.
Qed.

Lemma stack_depth_shape (n : nat) (selectedId : option string) (s : Shape.t) :
  stack_depth n (draw_shape Math_atan2 Math_cos Math_sin selectedId s) = Some n.
Proof.
  unfold draw_shape. cbn [app stack_depth].
  rewrite stack_depth_app, stack_depth_variant. cbn.
  by destruct (is_selected selectedId s).
Qed.

(** A shape that is not the selected one is drawn without a selection box. *)
Lemma draw_shape_unselected (selectedId : option string) (s : Shape.t) :
  is_selected selectedId s = false →
  draw_shape Math_atan2 Math_cos Math_sin selectedId s
  = draw_shape Math_atan2 Math_cos Math_sin None s.
Proof. unfold draw_shape. by intros ->. Qed.

(** Calls of which none throws are all carried out. *)
Lemma perform_quiet (cs : list call) :
  forallb (λ c, negb (throws c)) cs = true → perform cs = (cs, Returned).
Proof.
  induction cs as [|c cs IH]; [done|].
  cbn [forallb perform]. intros [Hc Hcs]%andb_true_iff.
  apply negb_true_iff in Hc. by rewrite Hc, (IH Hcs).
Qed.

(** A run of calls goes on to the calls that follow it only if it returns. *)
Lemma perform_app (cs cs' : list call) :
  perform (cs ++ cs')
  = match perform cs with
    | (made, Returned) =>
        let (more, ending) := perform cs' in (made ++ more, ending)
    | stopped => stopped
    end.
Proof.
  induction cs as [|c cs IH]; cbn [app perform].
  - by destruct (perform cs').
  - destruct (throws c); [done|]. rewrite IH.
    destruct (perform cs) as [made []]; [|done]. by destruct (perform cs').
Qed.

Lemma forallb_lines (f : Point.t → call) (pts : list Point.t) :
  (∀ p, ∃ x y, f p = lineTo x y) →
  forallb (λ c, negb (throws c)) (map f pts) = true.
Proof.
  intros Hf. induction pts as [|p pts IH]; [done|].
  cbn [map forallb]. destruct (Hf p) as (x & y & ->). exact IH.
Qed.

(** The one call of a shape that can throw is the [arc] of a circle. *)
Lemma throws_arc (s : Shape.t) :
  String.eqb (Shape.type s) "circle" = true →
  throws (arc 0 0 (JS.or_num (Shape.radius s) 30) 0 (JS.Math_PI * 2))
  = negative_radius s.
Proof.
  unfold negative_radius, throws. intros ->.
  change (is_finite 0) with true. change (is_finite (JS.Math_PI * 2)) with true.
  cbn [andb]. by rewrite !andb_true_r.
Qed.

(** A shape whose [arc] does not throw is drawn in full. *)
Lemma perform_draw_shape (selectedId : option string) (s : Shape.t) :
  negative_radius s = false →
  perform (draw_shape Math_atan2 Math_cos Math_sin selectedId s)
  = (draw_shape Math_atan2 Math_cos Math_sin selectedId s, Returned).
Proof.
  intros Hradius. apply perform_quiet.
  unfold draw_shape. rewrite !forallb_app. cbn [forallb throws negb andb].
  apply andb_true_iff. split; [|by destruct (is_selected selectedId s)].
  unfold draw_variant.
  destruct (String.eqb (Shape.type s) "circle") eqn:Hcircle.
  { cbn [forallb]. rewrite (throws_arc s Hcircle), Hradius. reflexivity. }
  destruct (String.eqb (Shape.type s) "line"); [reflexivity|].
  destruct (String.eqb (Shape.type s) "arrow"); [reflexivity|].
  destruct (String.eqb (Shape.type s) "pencil");
    [|by destruct (String.eqb (Shape.type s) "text")].
  rewrite !forallb_app. cbn [forallb throws negb andb]. rewrite andb_true_r.
  destruct (Shape.points s) as [[|p0 rest]|]; cbn [forallb throws negb andb];
    try reflexivity.
  apply forallb_lines. intros q. by eexists _, _.
Qed.

(** A circle whose [arc] throws is left after [beginPath]. *)
Lemma perform_draw_shape_thrown (selectedId : option string) (s : Shape.t) :
  negative_radius s = true →
  perform (draw_shape Math_atan2 Math_cos Math_sin selectedId s)
  = ([save; translate (JS.or_num (Some (Shape.x s)) 0) (JS.or_num (Some (Shape.y s)) 0);
      beginPath], IndexSizeError).
Proof.
  intros Hradius. unfold draw_shape, draw_variant.
  assert (String.eqb (Shape.type s) "circle" = true) as Hcircle.
  { unfold negative_radius in Hradius.
    by destruct (String.eqb (Shape.type s) "circle"). }
  rewrite Hcircle. cbn [app perform].
  change (throws save) with false. change (throws (translate _ _)) with false.
  change (throws beginPath) with false.
  by rewrite (throws_arc s Hcircle), Hradius.
Qed.

(** The calls made for a list of shapes, entered at depth [n], end at depth
    [n] when they return, and one deeper when an [arc] throws; they end so
    exactly when a shape of the list has such an [arc]. *)
Lemma perform_shapes (n : nat) (selectedId : option string) (l : list Shape.t) :
  let result :=
    perform (concat (map (draw_shape Math_atan2 Math_cos Math_sin selectedId) l)) in
  stack_depth n result.1
  = Some (match result.2 with Returned => n | IndexSizeError => S n end)
  ∧ (result.2 = IndexSizeError ↔ Exists (λ s, negative_radius s = true) l).
Proof.
  induction l as [|s l [IHdepth IHends]]; cbn zeta in *.
  { split; [done|]. split; [done|]. by intros ?%Exists_nil. }
  cbn [map concat]. rewrite perform_app, Exists_cons.
  destruct (negative_radius s) eqn:Hradius.
  - rewrite (perform_draw_shape_thrown _ _ Hradius). split; [done|]. split; auto.
  - rewrite (perform_draw_shape _ _ Hradius).
    destruct (perform (concat (map _ l))) as [more ending]. cbn [fst snd] in *.
    split.
    + by rewrite stack_depth_app, stack_depth_shape.
    + rewrite IHends. split; [auto|]. by intros [?|?].
Qed.

(** A complete shape has no [arc] that throws. *)
Lemma complete_radius (s : Shape.t) : complete s → negative_radius s = false.
Proof.
  unfold negative_radius.
  intros [[-> ->]|[[[-> | ->] _]|[[-> _]|[-> _]]]]; reflexivity.
Qed.

End Drawing.

(** X10.  [draw] never restores without a save, and as far as it runs it
    keeps [save] and [restore] in pairs.  When it returns, the calls it made
    leave the state stack of the context as deep as they found it: the
    translation to a shape's origin is undone before the next shape is
    drawn.  It fails to return in one case only, a circle whose radius
    [s.radius || 30] is finite and negative: [arc] throws there, the [save]
    of that circle is left without its [restore], and the list is drawn no
    further.  A list of complete shapes is always drawn to its end. *)
Theorem draw_balances_save_restore
    (Math_atan2 : float → float → float) (Math_cos Math_sin : float → float)
    (st : State) :
  let result := Renderer.draw Math_atan2 Math_cos Math_sin st in
  stack_depth 0 result.1
  = Some (match result.2 with
          | Renderer.Returned => 0
          | Renderer.IndexSizeError => 1
          end)
  ∧ (result.2 = Renderer.IndexSizeError
     ↔ is_Some (canvasRef st) ∧ Exists (λ s, negative_radius s = true) (shapes st))
  ∧ (Forall complete (shapes st) → result.2 = Renderer.Returned).
Proof.
  assert (let result := Renderer.draw Math_atan2 Math_cos Math_sin st in
          stack_depth 0 result.1
          = Some (match result.2 with
                  | Renderer.Returned => 0
                  | Renderer.IndexSizeError => 1
                  end)
          ∧ (result.2 = Renderer.IndexSizeError
             ↔ is_Some (canvasRef st)
               ∧ Exists (λ s, negative_radius s = true) (shapes st)))
    as [Hdepth Hends].
  { unfold Renderer.draw. destruct (canvasRef st) as [canvas|].
    - cbn [app Renderer.perform Renderer.throws].
      pose proof (perform_shapes Math_atan2 Math_cos Math_sin 0 (selectedId st)
                    (shapes st)) as [Hdepth Hends].
      destruct (Renderer.perform (concat (map _ (shapes st)))) as [made ending].
      cbn [fst snd stack_depth] in *. split; [done|].
      rewrite Hends. split; [by split|by intros [_ ?]].
    - split; [done|]. split; [done|]. by intros [[? [=]] _]. }
  cbn zeta in *. split_and!; [done|done|].
  intros Hcomplete.
  destruct (Renderer.draw Math_atan2 Math_cos Math_sin st).2; [done|].
  destruct (proj1 Hends eq_refl) as [_ Hbad].
  apply Exists_exists in Hbad as (s & Hs & Hbad).
  rewrite Forall_forall in Hcomplete.
  rewrite (complete_radius s (Hcomplete s Hs)) in Hbad. discriminate.
Qed.

(** X10 on a loaded list whose first shape is a circle of radius -5: [draw]
    stops at its [arc], one [save] deep, and the rectangle behind it is not
    drawn. *)
Lemma draw_balances_save_restore_witness :
  let draw := Renderer.draw (λ _ _, 0%float) (λ _, 1%float) (λ _, 0%float) in
  let st := setShapes
              [Shape.mk "c" "circle" 100 100 "page_1" None None (Some (-5)%float)
                 None None None None None None None;
               Sample.shape "a" "rectangle" 200 200] Sample.fresh in
  draw st
  = ([Renderer.setTransform 1 0 0 1 0 0;
      Renderer.clearRect 0 0 (canvas_width Sample.canvas) (canvas_height Sample.canvas);
      Renderer.scale 1 1;
      Renderer.save; Renderer.translate 100 100; Renderer.beginPath],
     Renderer.IndexSizeError)
  ∧ stack_depth 0 (draw st).1 = Some 1.
Proof.
  intros draw st. split; [reflexivity|].
  apply (draw_balances_save_restore (λ _ _, 0%float) (λ _, 1%float) (λ _, 0%float) st).
Defined.

(** X11.  A selected id that no shape of the list carries draws nothing:
    [draw] then makes the calls it makes with no selection. *)
Theorem draw_tolerates_dangling_selection
    (Math_atan2 : float → float → float) (Math_cos Math_sin : float → float)
    (st : State) (i : string) :
  selectedId st = Some i →
  i ∉ map Shape.id (shapes st) →
  Renderer.draw Math_atan2 Math_cos Math_sin st
  = Renderer.draw Math_atan2 Math_cos Math_sin (setSelectedId None st).
Proof.
  intros Hsel Hdangling. unfold Renderer.draw. cbn [canvasRef devicePixelRatio
    selectedId shapes setSelectedId]. destruct (canvasRef st); [|done].
  f_equal. f_equal. f_equal. rewrite Hsel.
  apply map_ext_in. intros s Hs%list_elem_of_In.
  apply draw_shape_unselected. cbn.
  apply String.eqb_neq. intros ->. apply Hdangling.
  apply list_elem_of_fmap. by exists s.
Qed.

(** X11 on a board whose selection names a shape that is not there. *)
Lemma draw_tolerates_dangling_selection_witness :
  let draw := Renderer.draw (λ _ _, 0%float) (λ _, 1%float) (λ _, 0%float) in
  let st := setSelectedId (Some "gone"%string)
              (setShapes [Sample.shape "a" "rectangle" 100 100] Sample.fresh) in
  draw st = draw (setSelectedId None st).
Proof.
  intros draw st.
  apply (draw_tolerates_dangling_selection (λ _ _, 0%float) (λ _, 1%float)
           (λ _, 0%float) st "gone"%string eq_refl).
  by intros [?|?%elem_of_nil]%elem_of_cons.
Defined.

(** ** Ids *)

Section Uid.

Import JS.

Lemma append_inj_r (p a b : string) : (p ++ a = p ++ b)%string → a = b.
Proof. induction p as [|c p IH]; cbn; [done|]. intros [=]. by apply IH. Qed.

(** Two strings free of a separator, each followed by it, are told apart
    by what stands before the first separator. *)
Lemma split_at_separator (c : Ascii.ascii) (a a' t t' : string) :
  free_of c a = true → free_of c a' = true →
  (a ++ String c t = a' ++ String c t')%string →
  a = a' ∧ t = t'.
Proof.
  revert a'. induction a as [|x a IH]; intros [|x' a'] Ha Ha'; cbn in *.
  - by intros [=].
  - intros [= <- _]. by rewrite Ascii.eqb_refl in Ha'.
  - intros [= -> _]. by rewrite Ascii.eqb_refl in Ha.
  - intros [= <- Hrest].
    apply andb_prop in Ha as [_ Ha]. apply andb_prop in Ha' as [_ Ha'].
    destruct (IH a' Ha Ha' Hrest) as [-> ->]. done.
Qed.

Lemma digits_free_of_underscore (d : Decimal.uint) :
  free_of separator (NilEmpty.string_of_uint d) = true.
Proof. induction d; cbn; done. Qed.

Lemma string_of_Z_free_of_underscore (z : Z) : free_of separator (string_of_Z z) = true.
Proof.
  destruct z; cbn; [done| |]; apply digits_free_of_underscore.
Qed.

Lemma string_of_uint_inj (d d' : Decimal.uint) :
  NilEmpty.string_of_uint d = NilEmpty.string_of_uint d' → d = d'.
Proof.
  intros Heq. apply (f_equal NilEmpty.uint_of_string) in Heq.
  rewrite !NilEmpty.usu in Heq. by injection Heq.
Qed.

Lemma digits_not_minus (p : positive) (s : string) :
  ∀ c, NilEmpty.string_of_uint (Pos.to_uint p) = String c s → String c "" ≠ "-"%string.
Proof.
  intros c Heq.
  destruct (Pos.to_uint p); cbn in Heq; try discriminate;
    injection Heq as <- _; discriminate.
Qed.

(** The decimal digits of an integer determine it. *)
Lemma string_of_Z_inj (z z' : Z) : string_of_Z z = string_of_Z z' → z = z'.
Proof.
  destruct z as [|p|p], z' as [|q|q]; cbn; intros Heq; try done.
  - change "0"%string with (NilEmpty.string_of_uint (Decimal.D0 Decimal.Nil)) in Heq.
    apply string_of_uint_inj in Heq.
    pose proof (DecimalPos.Unsigned.of_to q) as Hback. rewrite <- Heq in Hback.
    discriminate.
  - change "0"%string with (NilEmpty.string_of_uint (Decimal.D0 Decimal.Nil)) in Heq.
    apply string_of_uint_inj in Heq.
    pose proof (DecimalPos.Unsigned.of_to p) as Hback. rewrite Heq in Hback.
    discriminate.
  - by apply string_of_uint_inj, DecimalPos.Unsigned.to_uint_inj in Heq as ->.
  - exfalso. by apply (digits_not_minus _ _ _ Heq).
  - symmetry in Heq. exfalso. by apply (digits_not_minus _ _ _ Heq).
  - injection Heq as Heq. by apply string_of_uint_inj, DecimalPos.Unsigned.to_uint_inj in Heq as ->.
Qed.

End Uid.

(** X12.  Two ids made by [uid] with the same prefix are equal only if the
    clock read the same millisecond and the two random draws have the same
    integer part of a thousandfold: ids made in different milliseconds
    differ. *)
Theorem uid_determines_clock (prefix : string) (now now' : Z) (r r' : float) :
  uid prefix now r = uid prefix now' r' →
  now = now'
  ∧ JS.string_of_floor (r * 1000)%float = JS.string_of_floor (r' * 1000)%float.
Proof.
  unfold uid. intros Heq.
  apply append_inj_r in Heq. cbn [String.append] in Heq. injection Heq as Heq.
  apply split_at_separator in Heq as [Hnow Hrandom];
    [|apply string_of_Z_free_of_underscore..].
  split; [by apply string_of_Z_inj|done].
Qed.

(** X12 on two calls in the same millisecond whose draws 0.5 and
    0.50048828125 make the same id. *)
Lemma uid_determines_clock_witness :
  1700000000000%Z = 1700000000000%Z
  ∧ JS.string_of_floor (0.5 * 1000)%float
    = JS.string_of_floor (0.50048828125 * 1000)%float.
Proof.
  apply (uid_determines_clock "shape" 1700000000000 1700000000000 0.5 0.50048828125).
  reflexivity.
Defined.

(** ** Order of the list *)

Section Order.

Import Geometry.

Lemma findShapeAt_find (l : list Shape.t) (p : Point.t) :
  findShapeAt l p = List.find (hit p) (rev l).
Proof.
  unfold findShapeAt. rewrite findShapeAt_from_rev by lia. by rewrite firstn_all.
Qed.

Lemma find_app_first {A} (f : A → bool) (l l' : list A) :
  List.find f (l ++ l') = match List.find f l with
                          | Some a => Some a
                          | None => List.find f l'
                          end.
Proof.
  induction l as [|a l IH]; [done|]. cbn. by destruct (f a).
Qed.

End Order.

(** X13.  The list is ordered from back to front for the hit test and for
    the renderer alike.  A hit among the shapes added later hides every hit
    among the earlier ones.  When [draw] gets through the list, it makes the
    calls of a shape appended to the list after all the calls it made before:
    the new shape is painted over the others and is the first to be picked.
    When [draw] stops at an [arc] that throws, the appended shape changes
    nothing: it is not drawn. *)
Theorem later_shapes_on_top
    (Math_atan2 : float → float → float) (Math_cos Math_sin : float → float) :
  (∀ (l l' : list Shape.t) (p : Point.t),
      Geometry.findShapeAt (l ++ l') p
      = match Geometry.findShapeAt l' p with
        | Some s => Some s
        | None => Geometry.findShapeAt l p
        end)
  ∧ (∀ (st : State) (s : Shape.t),
      is_Some (canvasRef st) →
      Renderer.draw Math_atan2 Math_cos Math_sin (setShapes (shapes st ++ [s]) st)
      = match Renderer.draw Math_atan2 Math_cos Math_sin st with
        | (made, Renderer.Returned) =>
            let (more, ending) :=
              Renderer.perform
                (Renderer.draw_shape Math_atan2 Math_cos Math_sin (selectedId st) s) in
            (made ++ more, ending)
        | stopped => stopped
        end).
Proof.
  split.
  - intros l l' p. rewrite !findShapeAt_find, rev_app_distr. apply find_app_first.
  - intros st s [canvas Hcanvas]. unfold Renderer.draw.
    cbn [canvasRef devicePixelRatio selectedId shapes setShapes]. rewrite Hcanvas.
    rewrite map_app, concat_app. cbn [map concat]. rewrite app_nil_r.
    rewrite app_assoc. apply perform_app.
Qed.

(** X13 on a board with one shape, to which a circle is appended: the calls
    of the circle follow those made before. *)
Lemma later_shapes_on_top_witness :
  let draw := Renderer.draw (λ _ _, 0%float) (λ _, 1%float) (λ _, 0%float) in
  let st := setShapes [Sample.shape "a" "rectangle" 100 100] Sample.fresh in
  let b := Sample.shape "b" "circle" 110 110 in
  draw (setShapes (shapes st ++ [b]) st)
  = ((draw st).1
     ++ Renderer.draw_shape (λ _ _, 0%float) (λ _, 1%float) (λ _, 0%float)
          (selectedId st) b,
     Renderer.Returned).
Proof.
  intros draw st b.
  apply (proj2 (later_shapes_on_top (λ _ _, 0%float) (λ _, 1%float) (λ _, 0%float)) st b).
  by eexists.
Defined.

(** ** Shapes that lack what their variant reads *)

Section Missing.

Import JS Geometry.
Local Open Scope float_scope.

(** No number is at least [NaN], and none is at most [NaN]. *)
Lemma leb_nan_l (a : float) : (nan <=? a) = false.
Proof. rewrite leb_spec. reflexivity. Qed.

Lemma leb_nan_r (a : float) : (a <=? nan) = false.
Proof.
  rewrite leb_spec. change (Prim2SF nan) with S754_nan.
  unfold SFleb, SFcompare. by destruct (Prim2SF a) as [[]|[]| |[]].
Qed.

Lemma Math_min_nan (a : float) : Math_min a nan = nan.
Proof. unfold Math_min. by rewrite orb_true_r. Qed.

Lemma Math_max_nan (a : float) : Math_max a nan = nan.
Proof. unfold Math_max. by rewrite orb_true_r. Qed.

End Missing.

(** X14.  A line or arrow that lacks [x2] or [y2], and a pencil stroke that
    lacks its points or has none, is hit at no point, so that [findShapeAt]
    never returns it.  Where the ids of the list are distinct, a pointer-down
    with the select tool therefore never selects such a shape and never opens
    a drag session on it: it leaves the session as it was, or opens one on
    another shape.  The shape can still be selected, by a click on its entry
    in the shapes panel. *)
Theorem incomplete_shape_never_picked (s : Shape.t) :
  lacks_geometry s →
  (∀ p, Geometry.hit p s = false)
  ∧ (∀ l p, Geometry.findShapeAt l p ≠ Some s)
  ∧ (∀ (now : Z) (random : float) (answer : option string)
       (e : Whiteboard.MouseEvent) (st : State) (canvas : Canvas),
      canvasRef st = Some canvas →
      tool st ≠ "pencil"%string →
      tool st ≠ "text"%string →
      s ∈ shapes st →
      NoDup (map Shape.id (shapes st)) →
      let st' := Whiteboard.handleMouseDown now random answer e st in
      selectedId st' ≠ Some (Shape.id s)
      ∧ (dragState st' = dragState st
         ∨ shapeId (dragState st') ≠ Some (Shape.id s)))
  ∧ (∀ st, selectedId (Whiteboard.step st (Whiteboard.ClickListItem (Shape.id s)))
           = Some (Shape.id s)).
Proof.
  intros Hlacks.
  assert (∀ p, Geometry.hit p s = false) as Hmiss.
  { intros p. unfold Geometry.hit.
    destruct Hlacks as [[Htype Hmissing]|[-> Hmissing]].
    - assert (String.eqb (Shape.type s) "circle" = false) as ->
        by (by destruct Htype as [-> | ->]).
      assert (String.eqb (Shape.type s) "line" || String.eqb (Shape.type s) "arrow" = true)
        as -> by (by destruct Htype as [-> | ->]).
      destruct Hmissing as [-> | ->]; cbn [JS.to_number].
      + rewrite Math_min_nan.
        change (nan - 6)%float with nan. unfold JS.geb. by rewrite leb_nan_l.
      + rewrite Math_max_nan.
        change (nan + 6)%float with nan. by rewrite leb_nan_r, andb_false_r.
    - cbn. by destruct Hmissing as [-> | ->]. }
  assert (∀ l p, Geometry.findShapeAt l p ≠ Some s) as Hfind.
  { intros l p [_ Hhit]%findShapeAt_elem. rewrite Hmiss in Hhit. discriminate. }
  split_and!; [done|done| |done].
  intros now random answer e st canvas Hcanvas Hpencil Htext Hin Hids st'. subst st'.
  rewrite (handleMouseDown_select now random answer e st canvas Hcanvas Hpencil Htext).
  destruct (Geometry.findShapeAt (shapes st) (Whiteboard.getPointerPos canvas e))
    as [hit|] eqn:Hfound.
  - assert (Shape.id hit ≠ Shape.id s) as Hother.
    { intros Hid. apply (Hfind (shapes st) (Whiteboard.getPointerPos canvas e)).
      rewrite Hfound. f_equal.
      apply findShapeAt_elem in Hfound as [Hhit _].
      apply list_elem_of_lookup in Hhit as [i Hi].
      apply list_elem_of_lookup in Hin as [j Hj].
      assert (i = j) as ->; [|congruence].
      apply (NoDup_lookup _ i j (Shape.id s) Hids); rewrite list_lookup_fmap.
      + rewrite Hi. cbn. by f_equal.
      + by rewrite Hj. }
    split; [|right]; cbn; congruence.
  - split; [done|by left].
Qed.

(** X14 on a line loaded without its second endpoint: it is missed at its
    own origin, and a click on its entry in the panel selects it. *)
Lemma incomplete_shape_never_picked_witness :
  let l := Sample.shape "l" "line" 100 100 in
  Geometry.hit (Point.mk 100 100) l = false
  ∧ selectedId (Whiteboard.step (setShapes [l] Sample.fresh)
                  (Whiteboard.ClickListItem "l"))
    = Some "l"%string.
Proof.
  intros l.
  destruct (incomplete_shape_never_picked l) as (Hmiss & _ & _ & Hpanel).
  - left. split; [by left|by left].
  - split; [apply Hmiss|apply (Hpanel (setShapes [l] Sample.fresh))].
Defined.

(** ** What [load] touches *)

(** X15.  However the fetch turns out, [load] sends one request, the GET of
    the shapes of the active page.  It writes the cache only when the fetch
    succeeded, and then with the list it puts in memory; when the fetch
    failed the cache is left as it was, and if [load] ends in an error the
    list in memory is left as it was too. *)
Theorem load_spares_cache_on_failure (r : Whiteboard.FetchResult) (st : State) :
  match Whiteboard.load r st with
  | Whiteboard.Fulfilled st' =>
      requests st' = requests st ++ [Whiteboard.GET_shapes (pageId st)]
      ∧ (if fetch_failed r then localStorage st' = localStorage st else in_sync st')
  | Whiteboard.Rejected _ st' =>
      requests st' = requests st ++ [Whiteboard.GET_shapes (pageId st)]
      ∧ fetch_failed r = true
      ∧ localStorage st' = localStorage st
      ∧ shapes st' = shapes st
  | Whiteboard.Untyped _ => True
  end.
Proof.
  assert (match Whiteboard.load_saved (asked st) with
          | Whiteboard.Fulfilled st' =>
              requests st' = requests st ++ [Whiteboard.GET_shapes (pageId st)]
              ∧ localStorage st' = localStorage st
          | Whiteboard.Rejected _ st' =>
              requests st' = requests st ++ [Whiteboard.GET_shapes (pageId st)]
              ∧ localStorage st' = localStorage st
              ∧ shapes st' = shapes st
          | Whiteboard.Untyped _ => True
          end) as Hsaved.
  { unfold Whiteboard.load_saved, localStorage_getItem.
    destruct (localStorage (asked st) !! "shapes"%string) as [saved|]; [|done].
    destruct (Json.truthy saved); [|done].
    destruct (Json.JSON_parse saved) as [j|]; [|done].
    by destruct (Json.shapes_of_json j). }
  destruct (fetch_failed r) eqn:Hfailed.
  - rewrite (load_failed r st Hfailed).
    destruct (Whiteboard.load_saved (asked st)); [done| |done].
    by destruct Hsaved as (? & ? & ?).
  - destruct r as [|[] body]; try discriminate.
    unfold Whiteboard.load. cbn in Hfailed.
    destruct (Json.JSON_parse body) as [j|]; [|discriminate].
    destruct (Json.shapes_of_json j); [|done].
    split; [done|apply lookup_insert_eq].
Qed.

(** * Properties of the server *)

Section ServerStore.

Import Json Server.

Lemma is_string_inj (v : option json) (s t : string) :
  is_string v s = true → is_string v t = true → s = t.
Proof.
  destruct v as [[]|]; try done. cbn.
  intros Hs%String.eqb_eq Ht%String.eqb_eq. congruence.
Qed.

Lemma filter_idem {A} (f : A → bool) (l : list A) :
  List.filter f (List.filter f l) = List.filter f l.
Proof.
  induction l as [|a l IH]; [done|]. cbn.
  destruct (f a) eqn:Hf; [|done]. cbn. by rewrite Hf, IH.
Qed.

(** Filtering by [f] what was kept by [g], when [f] implies [g]. *)
Lemma filter_within {A} (f g : A → bool) (l : list A) :
  (∀ a, f a = true → g a = true) →
  List.filter f (List.filter g l) = List.filter f l.
Proof.
  intros Himpl. induction l as [|a l IH]; [done|]. cbn.
  destruct (g a) eqn:Hg; cbn; destruct (f a) eqn:Hf; try by rewrite IH.
  rewrite (Himpl a Hf) in Hg. discriminate.
Qed.

(** Filtering by [f] what was kept by the negation of [f]. *)
Lemma filter_without {A} (f : A → bool) (l : list A) :
  List.filter f (List.filter (λ a, negb (f a)) l) = [].
Proof.
  induction l as [|a l IH]; [done|]. cbn.
  destruct (f a) eqn:Hf; cbn; [done|]. by rewrite Hf.
Qed.

Lemma findIndex_none {A} (f : A → bool) (l : list A) :
  (∀ a, a ∈ l → f a = false) → findIndex f l = None.
Proof.
  induction l as [|a l IH]; [done|]. intros Hnone. cbn.
  rewrite (Hnone a) by apply list_elem_of_here.
  rewrite IH; [done|]. intros b Hb. apply Hnone. by apply list_elem_of_further.
Qed.

Lemma findIndex_first {A} (f : A → bool) (l : list A) (i : nat) (a : A) :
  l !! i = Some a → f a = true →
  (∀ j b, j < i → l !! j = Some b → f b = false) →
  findIndex f l = Some i.
Proof.
  revert i. induction l as [|b l IH]; intros i Ha Hf Hbefore; [done|]. cbn.
  destruct i as [|i].
  - injection Ha as ->. by rewrite Hf.
  - rewrite (Hbefore 0 b) by (done || lia). cbn in Ha.
    rewrite (IH i Ha Hf); [done|].
    intros j c Hj Hc. apply (Hbefore (S j) c); [lia|done].
Qed.

End ServerStore.

(** X16.  [POST /api/shapes] answers 201 with the shape it stored, and adds
    that shape after those already stored.  The stored shape has every
    property of the body; it keeps the id of the body when that id is truthy
    and is given the id ['shape_' + uuid] otherwise.  Afterwards the shape is
    listed last on the page that its [pageId] names, and on no other; a body
    whose [pageId] is not a string is stored all the same and listed on no
    page. *)
Theorem server_post_shape_listed
    (uuid : string) (body : gmap string Json.json) (db : Server.Store) :
  ∃ stored,
    Server.POST_shapes uuid body db
    = (Server.mkReply 201 (Server.AShape stored),
       Server.mkStore (Server.pages db) (Server.shapes db ++ [stored]))
    ∧ (∀ k, k ≠ "id"%string → stored !! k = body !! k)
    ∧ (if Server.truthy (body !! "id"%string) then stored = body
       else stored !! "id"%string = Some (Json.JStr ("shape_" ++ uuid)))
    ∧ ∀ page,
        Server.shapesForPage page (Server.POST_shapes uuid body db).2
        = Server.shapesForPage page db
          ++ (if Server.is_string (body !! "pageId"%string) page then [stored] else []).
Proof.
  eexists. split; [reflexivity|]. split_and!.
  - intros k Hk. by rewrite lookup_insert_ne.
  - destruct (body !! "id"%string) as [v|] eqn:Hid.
    + destruct (Server.truthy (Some v)); [by apply insert_id|apply lookup_insert_eq].
    + apply lookup_insert_eq.
  - intros page. unfold Server.shapesForPage. cbn [snd Server.POST_shapes Server.shapes].
    rewrite List.filter_app. cbn [List.filter].
    by rewrite lookup_insert_ne.
Qed.

(** X17.  [PUT /api/shapes/:id] answers 404 and leaves the store as it is
    when no stored shape has the id.  Otherwise it answers 200 with the first
    shape of that id merged with the body, and puts the merged shape in its
    place: every property of the body, then every property of the stored
    shape that the body lacks.  The other shapes, a later one of the same id
    among them, stay as they are. *)
Theorem server_put_shape_merges
    (id : string) (body : gmap string Json.json) (db : Server.Store) :
  ((∀ s, s ∈ Server.shapes db → Server.is_string (s !! "id"%string) id = false) →
   Server.PUT_shape id body db = (Server.mkReply 404 (Server.Error "not found"), db))
  ∧ ∀ idx old,
      Server.shapes db !! idx = Some old →
      Server.is_string (old !! "id"%string) id = true →
      (∀ j s, j < idx → Server.shapes db !! j = Some s →
              Server.is_string (s !! "id"%string) id = false) →
      ∃ merged,
        Server.PUT_shape id body db
        = (Server.mkReply 200 (Server.AShape merged),
           Server.mkStore (Server.pages db) (<[idx := merged]> (Server.shapes db)))
        ∧ (∀ k, merged !! k = match body !! k with
                             | Some v => Some v
                             | None => old !! k
                             end)
        ∧ length (Server.shapes (Server.PUT_shape id body db).2)
          = length (Server.shapes db)
        ∧ ∀ j, j ≠ idx →
            Server.shapes (Server.PUT_shape id body db).2 !! j = Server.shapes db !! j.
Proof.
  split.
  - intros Hnone. unfold Server.PUT_shape. by rewrite findIndex_none.
  - intros idx old Hold Hid Hfirst. exists (body ∪ old).
    assert (Server.PUT_shape id body db
            = (Server.mkReply 200 (Server.AShape (body ∪ old)),
               Server.mkStore (Server.pages db)
                 (<[idx := body ∪ old]> (Server.shapes db)))) as Hput.
    { unfold Server.PUT_shape.
      rewrite (findIndex_first _ _ idx old Hold Hid Hfirst). by rewrite Hold. }
    rewrite Hput. split_and!; [done| | |].
    + intros k. rewrite lookup_union. by destruct (body !! k), (old !! k).
    + cbn. by rewrite length_insert.
    + intros j Hj. cbn. by rewrite list_lookup_insert_ne.
Qed.

(** X17 on a store of two shapes of the same id: the PUT of a new [x]
    changes the first and keeps its [pageId]. *)
Lemma server_put_shape_merges_witness :
  let first := {[ "id"%string := Json.JStr "a"; "pageId"%string := Json.JStr "page_1";
                  "x"%string := Json.JNum 1 ]} in
  let second := {[ "id"%string := Json.JStr "a"; "x"%string := Json.JNum 2 ]} in
  let db := Server.mkStore [] [first; second] in
  let body := {[ "x"%string := Json.JNum 5 ]} in
  ∃ merged,
    Server.PUT_shape "a" body db
    = (Server.mkReply 200 (Server.AShape merged),
       Server.mkStore [] (<[0 := merged]> [first; second]))
    ∧ (∀ k, merged !! k = match body !! k with
                         | Some v => Some v
                         | None => first !! k
                         end)
    ∧ length (Server.shapes (Server.PUT_shape "a" body db).2) = 2
    ∧ ∀ j, j ≠ 0 →
        Server.shapes (Server.PUT_shape "a" body db).2 !! j = [first; second] !! j.
Proof.
  intros first second db body.
  apply (proj2 (server_put_shape_merges "a" body db) 0 first); [done|done|].
  intros j s Hj. lia.
Defined.

(** X18.  [DELETE /api/pages/:id] answers 204 whether or not the page
    exists.  Afterwards no page has the id and the page lists no shape, while
    every other page lists the shapes it listed before, in the same order;
    deleting the page again changes nothing more. *)
Theorem server_delete_page_cascades (id : string) (db : Server.Store) :
  let db' := (Server.DELETE_page id db).2 in
  (Server.DELETE_page id db).1 = Server.mkReply 204 Server.Empty
  ∧ (∀ p, p ∈ Server.pages db' ↔ p ∈ Server.pages db ∧ Server.page_id p ≠ id)
  ∧ Server.shapesForPage id db' = []
  ∧ (∀ other, other ≠ id →
       Server.shapesForPage other db' = Server.shapesForPage other db)
  ∧ (Server.DELETE_page id db').2 = db'.
Proof.
  intros db'. subst db'. cbn [fst snd Server.DELETE_page]. split_and!.
  - done.
  - intros p. cbn. rewrite list_elem_of_In, filter_In, <- list_elem_of_In.
    by rewrite negb_true_iff, String.eqb_neq.
  - unfold Server.shapesForPage. cbn. apply filter_without.
  - intros other Hother. unfold Server.shapesForPage. cbn.
    apply filter_within. intros s Hs. apply negb_true_iff.
    destruct (Server.is_string (s !! "pageId"%string) id) eqn:Hid; [|done].
    destruct Hother. by apply (is_string_inj (s !! "pageId"%string)).
  - cbn. by rewrite !filter_idem.
Qed.

(** X19.  [DELETE /api/shapes/:id] answers 204 whether or not a shape has
    the id, removes every shape of that id and keeps the others in their
    order.  A PUT of the same id that arrives afterwards is answered 404 and
    changes nothing. *)
Theorem server_delete_shape_then_put
    (id : string) (body : gmap string Json.json) (db : Server.Store) :
  let db' := (Server.DELETE_shape id db).2 in
  (Server.DELETE_shape id db).1 = Server.mkReply 204 Server.Empty
  ∧ Server.pages db' = Server.pages db
  ∧ Server.shapes db'
    = List.filter (λ s, negb (Server.is_string (s !! "id"%string) id)) (Server.shapes db)
  ∧ (∀ s, s ∈ Server.shapes db' ↔
          s ∈ Server.shapes db ∧ Server.is_string (s !! "id"%string) id = false)
  ∧ Server.PUT_shape id body db'
    = (Server.mkReply 404 (Server.Error "not found"), db').
Proof.
  intros db'. subst db'. cbn [fst snd Server.DELETE_shape].
  assert (∀ s, s ∈ List.filter (λ s, negb (Server.is_string (s !! "id"%string) id))
                     (Server.shapes db) ↔
               s ∈ Server.shapes db ∧ Server.is_string (s !! "id"%string) id = false)
    as Hkept.
  { intros s. rewrite list_elem_of_In, filter_In, <- list_elem_of_In.
    by rewrite negb_true_iff. }
  split_and!; try done.
  unfold Server.PUT_shape. rewrite findIndex_none; [done|].
  intros s Hs. by apply Hkept in Hs as [_ Hs].
Qed.

Section ServerPages.

Import Json Server.

Lemma filter_all {A} (f : A → bool) (l : list A) :
  (∀ a, a ∈ l → f a = true) → List.filter f l = l.
Proof.
  induction l as [|a l IH]; [done|]. intros Hall. cbn.
  rewrite (Hall a) by apply list_elem_of_here.
  rewrite IH; [done|]. intros b Hb. apply Hall. by apply list_elem_of_further.
Qed.

End ServerPages.

(** X20.  [POST /api/pages] answers 400 and leaves the store as it is when
    the body has no [name] or a falsy one.  Otherwise it answers 201 and adds
    a page of id ['page_' + uuid]; if that id was new to the store, deleting
    the page again gives back the store as it was before the page was
    created. *)
Theorem server_page_created_then_deleted
    (uuid : string) (body : gmap string Json.json) (db : Server.Store) :
  (Server.truthy (body !! "name"%string) = false →
   Server.POST_pages uuid body db
   = (Server.mkReply 400 (Server.Error "name required"), db))
  ∧ (Server.truthy (body !! "name"%string) = true →
     (∀ p, p ∈ Server.pages db → Server.page_id p ≠ ("page_" ++ uuid)%string) →
     (∀ s, s ∈ Server.shapes db →
           Server.is_string (s !! "pageId"%string) ("page_" ++ uuid) = false) →
     Server.status (Server.POST_pages uuid body db).1 = 201
     ∧ length (Server.pages (Server.POST_pages uuid body db).2)
       = S (length (Server.pages db))
     ∧ (Server.DELETE_page ("page_" ++ uuid) (Server.POST_pages uuid body db).2).2 = db).
Proof.
  unfold Server.POST_pages. split.
  - destruct (body !! "name"%string) as [name|]; [|done].
    by destruct (Server.truthy (Some name)).
  - destruct (body !! "name"%string) as [name|]; [|done].
    intros -> Hpages Hshapes. cbn. split_and!; [done| |].
    + rewrite length_app. cbn. lia.
    + rewrite List.filter_app. cbn. rewrite String.eqb_refl. cbn.
      rewrite app_nil_r, !filter_all; [by destruct db| |].
      * intros s Hs. by rewrite (Hshapes s Hs).
      * intros p Hp. apply negb_true_iff, String.eqb_neq. by apply Hpages.
Qed.

(** X20 on the store of a freshly started server. *)
Lemma server_page_created_then_deleted_witness :
  let body := {[ "name"%string := Json.JStr "Sketches" ]} in
  Server.status (Server.POST_pages "u1" body Server.started).1 = 201
  ∧ length (Server.pages (Server.POST_pages "u1" body Server.started).2) = 2
  ∧ (Server.DELETE_page "page_u1" (Server.POST_pages "u1" body Server.started).2).2
    = Server.started.
Proof.
  intros body.
  apply (proj2 (server_page_created_then_deleted "u1" body Server.started)).
  - reflexivity.
  - by intros p ->%list_elem_of_singleton.
  - by intros s Hs%elem_of_nil.
Defined.

(** * The component and the server together *)

Section EndToEnd.

Import Json Http.

Lemma object_of_from (ms : list (string * json)) (m : gmap string json) (k : string) :
  foldl (λ m kv, <[kv.1 := kv.2]> m) m ms !! k
  = match get k ms with
    | Some v => Some v
    | None => m !! k
    end.
Proof.
  revert m. induction ms as [|[k' v] ms IH]; intros m; [done|].
  cbn [foldl get]. rewrite IH. destruct (get k ms); [done|]. cbn.
  destruct (String.eqb k k') eqn:Hk.
  - apply String.eqb_eq in Hk as ->. apply lookup_insert_eq.
  - apply String.eqb_neq in Hk. by rewrite lookup_insert_ne.
Qed.

(** The object reads as the members it was made of. *)
Lemma object_of_lookup (ms : list (string * json)) (k : string) :
  object_of ms !! k = get k ms.
Proof.
  unfold object_of. rewrite object_of_from. by destruct (get k ms).
Qed.

Lemma get_elem (ms : list (string * json)) (k : string) (v : json) :
  get k ms = Some v → (k, v) ∈ ms.
Proof.
  induction ms as [|[k' v'] ms IH]; [done|]. cbn.
  destruct (get k ms) as [w|].
  - intros [= ->]. by apply list_elem_of_further, IH.
  - destruct (String.eqb k k') eqn:Hk; [|done].
    apply String.eqb_eq in Hk as ->. intros [= ->]. apply list_elem_of_here.
Qed.

Lemma get_unique (ms : list (string * json)) (k : string) (v : json) :
  NoDup ms.*1 → (k, v) ∈ ms → get k ms = Some v.
Proof.
  induction ms as [|[k' v'] ms IH]; [by intros _ ?%elem_of_nil|].
  cbn. intros [Hfresh Hrest]%NoDup_cons [[= -> ->]|Hin]%elem_of_cons.
  - destruct (get k' ms) as [w|] eqn:Hget; [|by rewrite String.eqb_refl].
    destruct Hfresh. apply get_elem in Hget.
    apply list_elem_of_fmap. by exists (k', w).
  - by rewrite (IH Hrest Hin).
Qed.

(** The members that a map is written with read as the map. *)
Lemma get_map_to_list (m : gmap string json) (k : string) :
  get k (map_to_list m) = m !! k.
Proof.
  destruct (m !! k) as [v|] eqn:Hm.
  - apply get_unique; [apply NoDup_fst_map_to_list|]. by apply elem_of_map_to_list.
  - destruct (get k (map_to_list m)) as [v|] eqn:Hget; [|done].
    apply get_elem, elem_of_map_to_list in Hget. congruence.
Qed.

Lemma shape_of_json_ext (ms ms' : list (string * json)) :
  (∀ k, get k ms = get k ms') →
  shape_of_json (JObj ms) = shape_of_json (JObj ms').
Proof.
  intros Hsame. unfold shape_of_json, optional. by rewrite !Hsame.
Qed.

End EndToEnd.

Section Restringify.

Import Json Http.

Lemma restringify_number (f : float) :
  restringify (json_of_number f) = json_of_number f.
Proof.
  unfold json_of_number.
  destruct (PrimFloat.classify f) eqn:Hclass; try reflexivity;
    cbn; unfold json_of_number; by rewrite Hclass.
Qed.

Lemma restringify_point (p : Point.t) :
  restringify (json_of_point p) = json_of_point p.
Proof. cbn. by rewrite !restringify_number. Qed.

Lemma restringify_points (pts : list Point.t) :
  restringify (JArr (map json_of_point pts)) = JArr (map json_of_point pts).
Proof.
  cbn [restringify]. f_equal. rewrite map_map.
  apply map_ext. intros p. apply restringify_point.
Qed.

Lemma restringify_member {A} (k : string) (enc : A → json) (o : option A) :
  (∀ a, restringify (enc a) = enc a) →
  map (λ kv, match kv with (k, v) => (k, restringify v) end) (member k enc o)
  = member k enc o.
Proof. intros Henc. destruct o as [a|]; [|done]. cbn. by rewrite Henc. Qed.

(** What the component sends is written again as it is. *)
Lemma restringify_shape (s : Shape.t) :
  restringify (json_of_shape s) = json_of_shape s.
Proof.
  unfold json_of_shape. cbn [restringify]. f_equal.
  rewrite !map_app.
  rewrite !(restringify_member _ json_of_number) by apply restringify_number.
  rewrite !(restringify_member _ JStr) by done.
  rewrite (restringify_member "points" _ (Shape.points s)) by apply restringify_points.
  cbn [map]. by rewrite !restringify_number.
Qed.

Lemma get_restringify (ms : list (string * json)) (k : string) :
  get k (map (λ kv, match kv with (k, v) => (k, restringify v) end) ms)
  = restringify <$> get k ms.
Proof.
  induction ms as [|[k' v] ms IH]; [done|]. cbn [map get]. rewrite IH.
  destruct (get k ms); [done|]. cbn. by destruct (String.eqb k k').
Qed.

Lemma members_through_server (ms : list (string * json)) (k : string) :
  restringify (JObj ms) = JObj ms →
  get k (map_to_list (restringify <$> object_of ms)) = get k ms.
Proof.
  cbn [restringify]. intros [= Hfixed].
  rewrite get_map_to_list, lookup_fmap, object_of_lookup.
  by rewrite <- get_restringify, Hfixed.
Qed.

(** The text of a posted shape, taken in by [express.json()] and written
    out by [res.json], is read by the component as the shape. *)
Lemma shape_through_server (s : Shape.t) (o : gmap string json) :
  storable s = true →
  express_json (JSON_stringify_shape s) = Some o →
  shape_of_json (JObj (map_to_list (restringify <$> o))) = Some s.
Proof.
  intros Hs [= <-]. rewrite <- (shape_round_trip s Hs).
  apply shape_of_json_ext. intros k.
  apply members_through_server, (restringify_shape s).
Qed.

End Restringify.

Section Reload.

Import Json Http.

(** The object that the server receives for a shape of the component. *)
Lemma posted_object (s : Shape.t) :
  ∃ o, body (Whiteboard.POST_shape s) ≫= express_json = Some o
       ∧ express_json (JSON_stringify_shape s) = Some o
       ∧ o !! "id"%string = Some (JStr (Shape.id s))
       ∧ o !! "pageId"%string = Some (JStr (Shape.pageId s)).
Proof.
  destruct (members_of s) as (ms & Hms & Hid & _ & _ & _ & Hpage & _).
  exists (object_of ms). unfold Whiteboard.POST_shape, JSON_stringify_shape.
  cbn [body mbind option_bind]. rewrite Hms. cbn [express_json].
  by rewrite !object_of_lookup.
Qed.

(** A shape with a non-empty id is stored under that id, as it arrived. *)
Lemma post_keeps_object (uuid : string) (s : Shape.t) (o : gmap string json)
    (db : Server.Store) :
  Shape.id s ≠ ""%string →
  o !! "id"%string = Some (JStr (Shape.id s)) →
  (Server.POST_shapes uuid o db).2
  = Server.mkStore (Server.pages db) (Server.shapes db ++ [o]).
Proof.
  intros Hid%String.eqb_neq Ho. unfold Server.POST_shapes. rewrite Ho. cbn.
  rewrite Hid. cbn. by rewrite insert_id.
Qed.

Lemma post_all_stores (uuid : Shape.t → string) (l : list Shape.t) :
  Forall (λ s, Shape.id s ≠ ""%string) l →
  ∀ db, ∃ objects,
    Forall2 (λ s o, express_json (JSON_stringify_shape s) = Some o
                    ∧ o !! "pageId"%string = Some (JStr (Shape.pageId s))) l objects
    ∧ post_all uuid l db
      = Server.mkStore (Server.pages db) (Server.shapes db ++ objects).
Proof.
  induction 1 as [|s l Hid _ IH]; intros db.
  - exists []. split; [constructor|]. cbn. rewrite app_nil_r. by destruct db.
  - destruct (posted_object s) as (o & Hbody & Hjson & Hoid & Hopage).
    unfold post_all. cbn [foldl]. rewrite Hbody.
    rewrite (post_keeps_object (uuid s) s o db Hid Hoid).
    destruct (IH (Server.mkStore (Server.pages db) (Server.shapes db ++ [o])))
      as (objects & Hobjects & Hstore).
    exists (o :: objects). split; [by constructor|].
    unfold post_all in Hstore. rewrite Hstore. cbn. by rewrite <- app_assoc.
Qed.

Lemma shapes_through_server (l : list Shape.t) (objects : list (gmap string json)) :
  Forall (λ s, storable s = true) l →
  Forall2 (λ s o, express_json (JSON_stringify_shape s) = Some o
                  ∧ o !! "pageId"%string = Some (JStr (Shape.pageId s))) l objects →
  JSON_parse (res_json objects) ≫= shapes_of_json = Some l.
Proof.
  intros Hl Hobjects. cbn.
  induction Hobjects as [|s o l objects [Ho _] _ IH]; [done|].
  apply Forall_cons in Hl as [Hs Hl]. cbn [map mapM].
  rewrite (shape_through_server s o Hs Ho). cbn.
  rewrite (IH Hl). reflexivity.
Qed.

Lemma filter_page (page : string) (l : list Shape.t) (objects : list (gmap string json)) :
  Forall (λ s, Shape.pageId s = page) l →
  Forall2 (λ s o, express_json (JSON_stringify_shape s) = Some o
                  ∧ o !! "pageId"%string = Some (JStr (Shape.pageId s))) l objects →
  List.filter (λ o, Server.is_string (o !! "pageId"%string) page) objects = objects.
Proof.
  intros Hl Hobjects.
  induction Hobjects as [|s o l objects [_ Ho] _ IH]; [done|].
  apply Forall_cons in Hl as [Hs Hl]. cbn. rewrite Ho, Hs. cbn.
  by rewrite String.eqb_refl, (IH Hl).
Qed.

End Reload.

(** X21.  What the component posts comes back when it reloads.  Let the
    server, holding no shape of the active page, handle the POSTs of a list
    of shapes as the component sends them, each shape with a non-empty id,
    the active page id, and numbers that are finite and not [-0].  A [load]
    that is then answered with the server's listing of the page puts that
    very list in memory, in order, and in the cache. *)
Theorem posted_shapes_come_back
    (uuid : Shape.t → string) (l : list Shape.t) (db : Server.Store) (st : State) :
  Forall (λ s, storable s = true) l →
  Forall (λ s, Shape.id s ≠ ""%string) l →
  Forall (λ s, Shape.pageId s = pageId st) l →
  Server.shapesForPage (pageId st) db = [] →
  let db' := Http.post_all uuid l db in
  ∃ st',
    Whiteboard.load
      (Whiteboard.Response true (Http.get_page_shapes (pageId st) db')) st
    = Whiteboard.Fulfilled st'
    ∧ shapes st' = l
    ∧ in_sync st'.
Proof.
  intros Hstorable Hids Hpage Hempty db'.
  destruct (post_all_stores uuid l Hids db) as (objects & Hobjects & Hstore).
  assert (Http.get_page_shapes (pageId st) db' = Http.res_json objects) as ->.
  { subst db'. rewrite Hstore. unfold Http.get_page_shapes, Server.GET_page_shapes,
      Server.shapesForPage. cbn.
    unfold Server.shapesForPage in Hempty.
    by rewrite List.filter_app, Hempty, (filter_page _ l objects Hpage Hobjects). }
  pose proof (shapes_through_server l objects Hstorable Hobjects) as Htrip.
  unfold Whiteboard.load.
  destruct (Json.JSON_parse (Http.res_json objects)) as [j|]; [|discriminate].
  cbn in Htrip. rewrite Htrip.
  eexists. split_and!; [reflexivity|reflexivity|apply lookup_insert_eq].
Qed.

(** X21 on a circle and a stroke posted to a freshly started server. *)
Lemma posted_shapes_come_back_witness :
  let l := [ Whiteboard.new_shape 1700000000000 0.5 0.25 0.75 "circle" "page_1";
             Shape.with_points
               (draft_at 1700000000002 0.25 "page_1" (Point.mk 0 0))
               [Point.mk 0 0; Point.mk 5 5; Point.mk 10 0] ] in
  let db' := Http.post_all (λ _, "u"%string) l Server.started in
  ∃ st',
    Whiteboard.load
      (Whiteboard.Response true (Http.get_page_shapes (pageId Sample.fresh) db'))
      Sample.fresh
    = Whiteboard.Fulfilled st'
    ∧ shapes st' = l
    ∧ in_sync st'.
Proof.
  intros l.
  apply (posted_shapes_come_back (λ _, "u"%string) l Server.started Sample.fresh).
  - repeat constructor.
  - repeat constructor; discriminate.
  - repeat constructor.
  - reflexivity.
Defined.

Section Update.

Import Json Http.

Lemma get_none_keys (ms : list (string * json)) (k : string) :
  get k ms = None ↔ k ∉ ms.*1.
Proof.
  induction ms as [|[k' v] ms IH]; cbn.
  - split; [|done]. intros _ Hin. by apply elem_of_nil in Hin.
  - rewrite not_elem_of_cons. destruct (get k ms) as [w|] eqn:Hget.
    + split; [done|]. intros [_ Hnot]. by apply IH in Hnot.
    + destruct (String.eqb k k') eqn:Hk.
      * apply String.eqb_eq in Hk. split; [done|]. by intros [Hne _].
      * apply String.eqb_neq in Hk. split; [|done]. intros _. split; [done|].
        by apply IH.
Qed.

(** Two shapes that differ in their origin only are written with the same
    member names. *)
Lemma same_members (s s' : Shape.t) :
  same_but_origin s s' →
  ∃ ms ms', json_of_shape s = JObj ms ∧ json_of_shape s' = JObj ms'
            ∧ ms.*1 = ms'.*1.
Proof.
  intros Hsame. eexists _, _. split_and!; [reflexivity..|].
  destruct s, s'. unfold same_but_origin in Hsame. cbn in Hsame.
  destruct_and!. by subst.
Qed.

Lemma posted_objects_same_keys (s s' : Shape.t) (o o' : gmap string json) (k : string) :
  same_but_origin s s' →
  express_json (JSON_stringify_shape s) = Some o →
  express_json (JSON_stringify_shape s') = Some o' →
  o' !! k = None → o !! k = None.
Proof.
  intros Hsame. destruct (same_members s s' Hsame) as (ms & ms' & Hms & Hms' & Hkeys).
  unfold JSON_stringify_shape. rewrite Hms, Hms'. cbn.
  intros [= <-] [= <-]. rewrite !object_of_lookup, !get_none_keys. by rewrite Hkeys.
Qed.

End Update.

(** X22.  The PUT that the component sends when a drag is released replaces
    the stored shape by the moved one.  If the server holds, as the first
    shape of its id, the object it received for a shape [s], and then handles
    the PUT of [s] moved to another origin, it answers 200 with the object of
    the moved shape and stores exactly that object in the place of the old
    one: no property of the old position survives the merge. *)
Theorem dragged_shape_replaces_stored
    (s moved : Shape.t) (o o' : gmap string Json.json) (db : Server.Store) (idx : nat) :
  same_but_origin s moved →
  Http.express_json (Json.JSON_stringify_shape s) = Some o →
  body (Whiteboard.PUT_shape (Shape.id moved) moved) ≫= Http.express_json = Some o' →
  Server.shapes db !! idx = Some o →
  (∀ j other, j < idx → Server.shapes db !! j = Some other →
              Server.is_string (other !! "id"%string) (Shape.id s) = false) →
  Server.PUT_shape (Shape.id moved) o' db
  = (Server.mkReply 200 (Server.AShape o'),
     Server.mkStore (Server.pages db) (<[idx := o']> (Server.shapes db))).
Proof.
  intros Hsame Ho Ho' Hidx Hfirst.
  assert (Shape.id moved = Shape.id s) as Hid by (by destruct Hsame as (-> & _)).
  destruct (posted_object s) as (o1 & _ & Ho1 & Hoid & _).
  assert (o1 = o) as -> by congruence.
  assert (o' ∪ o = o') as Hmerged.
  { apply map_eq. intros k. rewrite lookup_union.
    destruct (o' !! k) as [v|] eqn:Hk; [by destruct (o !! k)|].
    by rewrite (posted_objects_same_keys s moved o o' k Hsame Ho Ho' Hk). }
  unfold Server.PUT_shape. rewrite Hid.
  rewrite (findIndex_first _ _ idx o Hidx); [|by rewrite Hoid; cbn; rewrite String.eqb_refl|done].
  by rewrite Hidx, Hmerged.
Qed.

(** X22 on a rectangle posted at (100,100) and dragged to (190,145). *)
Lemma dragged_shape_replaces_stored_witness :
  let s := Sample.shape "a" "rectangle" 100 100 in
  let moved := Sample.shape "a" "rectangle" 190 145 in
  let o := Http.object_of
             [("id"%string, Json.JStr "a"); ("type"%string, Json.JStr "rectangle");
              ("x"%string, Json.JNum 100); ("y"%string, Json.JNum 100);
              ("pageId"%string, Json.JStr "page_1")] in
  let o' := Http.object_of
              [("id"%string, Json.JStr "a"); ("type"%string, Json.JStr "rectangle");
               ("x"%string, Json.JNum 190); ("y"%string, Json.JNum 145);
               ("pageId"%string, Json.JStr "page_1")] in
  let db := Server.mkStore (Server.pages Server.started) [o] in
  Server.PUT_shape "a" o' db
  = (Server.mkReply 200 (Server.AShape o'),
     Server.mkStore (Server.pages db) (<[0 := o']> (Server.shapes db))).
Proof.
  intros s moved o o' db.
  apply (dragged_shape_replaces_stored s moved o o' db 0).
  - unfold same_but_origin. by split_and!.
  - reflexivity.
  - reflexivity.
  - reflexivity.
  - intros j other Hj. lia.
Defined.
